(** * Amazon book-cover image API: validator, extraction chain, cache

    A shallow embedding of [app/core/image_extractor.py],
    [app/utils/cache.py] and the [/book-image] handler of
    [app/api/routes.py], with the properties of the specification stated
    and proved over it.

    Conventions of the embedding.
    - Python [str] is [string]; the characters are the 256 code points
      below U+0100, which cover what URLs and the markers of the program
      are made of.  On them [str.lower] folds [A-Z] and the capital letters
      of Latin-1, and the regular-expression class [\d] is [0-9].
    - A Python call that may raise returns [res A]: [Ret a] or [Raise e].
      [exn] lists subclasses of [Exception]; [try_except] is a handler with
      the classes it names.
    - Logging, timing and the [debug]/[profile] flags only write log lines
      and are left out, but for the line of the cache constructor that
      formats the timeout: it divides, outside any handler, and can raise.
    - Libraries the program calls but does not contain (json, the two
      [re.findall] scans of strategy 2, BeautifulSoup, the interpreter's
      integer digit limit, the constructor of the redis client) are the
      fields of [PyEnv]; the properties hold for every environment. *)

From Stdlib Require Import ZArith String Ascii Floats.
From stdpp Require Import gmap strings list.

(* ===================================================================== *)
(** * Python values, exceptions and string operations                    *)
(* ===================================================================== *)

Module Py.

(** Exception classes (all below [Exception]). [JSONDecodeError] is a
    subclass of [ValueError]. *)
Inductive exn : Type :=
| Exception
| ValueError
| JSONDecodeError
| AttributeError
| TypeError
| KeyError
| OSError
| UnpicklingError
| HTTPError
| RequestException
| RedisError
| OtherError (name : string).

#[global] Instance exn_eq_dec : EqDecision exn.
Proof. solve_decision. Defined.

(** [isinstance e c]: an exception of class [e] is caught by [except c]. *)
Definition isinstance (e c : exn) : bool :=
  match c with
  | Exception => true
  | ValueError => bool_decide (e = ValueError) || bool_decide (e = JSONDecodeError)
  | _ => bool_decide (e = c)
  end.

Inductive res (A : Type) : Type :=
| Ret (a : A)
| Raise (e : exn).
Arguments Ret {A} a.
Arguments Raise {A} e.

(** Sequencing: an exception raised by the first call ends the block. *)
Definition bind {A B} (m : res A) (k : A → res B) : res B :=
  match m with
  | Ret a => k a
  | Raise e => Raise e
  end.

Declare Scope res_scope.
Delimit Scope res_scope with res.
Notation "x ← y ; z" := (bind y (fun x => z))
  (at level 20, y at level 100, z at level 200, only parsing) : res_scope.
Open Scope res_scope.

(** [try: body  except classes: handler]. *)
Definition try_except {A} (body : res A) (classes : list exn) (handler : res A) : res A :=
  match body with
  | Ret a => Ret a
  | Raise e => if existsb (isinstance e) classes then handler else Raise e
  end.

(** A loop [for x in l: body] whose body may execute [return v]:
    [Some v] is the returned value, [None] is falling out of the loop. *)
Fixpoint for_return {A B} (l : list A) (body : A → res (option B)) : res (option B) :=
  match l with
  | [] => Ret None
  | x :: l' =>
      r ← body x;
      match r with
      | Some v => Ret (Some v)
      | None => for_return l' body
      end
  end.

(** Two statements in sequence, the first of which may execute [return]. *)
Definition then_ {B} (first second : res (option B)) : res (option B) :=
  r ← first;
  match r with
  | Some v => Ret (Some v)
  | None => second
  end.

(** ** Strings *)

(** [c.lower()] for one character: [A-Z], and U+00C0 to U+00DE without the
    multiplication sign U+00D7. *)
Definition lower_char (c : ascii) : ascii :=
  let n := nat_of_ascii c in
  if ((65 <=? n)%nat && (n <=? 90)%nat)
     || ((192 <=? n)%nat && (n <=? 222)%nat && negb (n =? 215)%nat)
  then ascii_of_nat (n + 32) else c.

(** [s.lower()] *)
Fixpoint lower (s : string) : string :=
  match s with
  | EmptyString => EmptyString
  | String c s' => String (lower_char c) (lower s')
  end.

(** [s.startswith(p)] *)
Fixpoint startswith (s p : string) {struct p} : bool :=
  match p, s with
  | EmptyString, _ => true
  | String a p', String b s' => bool_decide (a = b) && startswith s' p'
  | String _ _, EmptyString => false
  end.

(** [sub in s] for two strings. *)
Fixpoint str_contains (sub s : string) : bool :=
  startswith s sub ||
  match s with
  | EmptyString => false
  | String _ s' => str_contains sub s'
  end.

Definition is_digit (c : ascii) : bool :=
  let n := nat_of_ascii c in (48 <=? n)%nat && (n <=? 57)%nat.

Definition digit_value (c : ascii) : Z := Z.of_nat (nat_of_ascii c) - 48.

(** ** [int(s)] for a string, base 10

    Surrounding white space is stripped, one sign is allowed, digits may be
    separated by single underscores; anything else is a [ValueError].  With
    a digit limit in force ([sys.get_int_max_str_digits()], 0 for none) a
    literal of more digits is a [ValueError] too; the interpreter only looks
    at the limit for literals above [sys.int_info.str_digits_check_threshold]
    digits. *)

Definition str_digits_check_threshold : nat := 640.

(** White space that [int] strips: tab to carriage return, the space, and
    the two spaces of Latin-1, U+0085 and U+00A0. *)
Definition is_space (c : ascii) : bool :=
  Ascii.is_space c || bool_decide (nat_of_ascii c = 133%nat)
  || bool_decide (nat_of_ascii c = 160%nat).

Fixpoint lstrip (s : string) : string :=
  match s with
  | String c s' => if is_space c then lstrip s' else s
  | EmptyString => EmptyString
  end.

Fixpoint rstrip (s : string) : string :=
  match s with
  | EmptyString => EmptyString
  | String c s' =>
      match rstrip s' with
      | EmptyString => if is_space c then EmptyString else String c EmptyString
      | r => String c r
      end
  end.

Definition strip (s : string) : string := rstrip (lstrip s).

(** Value and number of digits of [digit (_? digit)*]. *)
Fixpoint int_digits (s : string) (acc : Z) (n : nat) (after_digit : bool) : option (Z * nat) :=
  match s with
  | EmptyString => if after_digit then Some (acc, n) else None
  | String c s' =>
      if is_digit c then int_digits s' (10 * acc + digit_value c)%Z (S n) true
      else if bool_decide (c = "_"%char) && after_digit then int_digits s' acc n false
      else None
  end.

Definition py_int (max_str_digits : nat) (s : string) : res Z :=
  let t := strip s in
  let '(neg, body) :=
    match t with
    | String "-"%char r => (true, r)
    | String "+"%char r => (false, r)
    | _ => (false, t)
    end in
  match int_digits body 0%Z 0%nat false with
  | Some (v, n) =>
      if (str_digits_check_threshold <? n)%nat && (0 <? max_str_digits)%nat
         && (max_str_digits <? n)%nat
      then Raise ValueError
      else Ret (if neg then (- v)%Z else v)
  | None => Raise ValueError
  end.

(** ** Values that [json.loads] can return *)

#[warnings="-register-all"]
Inductive pyval : Type :=
| PyNone
| PyBool (b : bool)
| PyInt (z : Z)
| PyFloat (f : float)
| PyStr (s : string)
| PyList (l : list pyval)
| PyDict (d : list (string * pyval)).

(** Truth value of an object in a condition. *)
Definition truthy (v : pyval) : bool :=
  match v with
  | PyNone => false
  | PyBool b => b
  | PyInt z => negb (z =? 0)%Z
  | PyFloat f => negb (PrimFloat.is_zero f)
  | PyStr s => negb (bool_decide (s = EmptyString))
  | PyList l => negb (bool_decide (length l = 0%nat))
  | PyDict d => negb (bool_decide (length d = 0%nat))
  end.

Definition dict_get (d : list (string * pyval)) (k : string) : option pyval :=
  snd <$> List.find (fun kv => bool_decide (kv.1 = k)) d.

Definition is_str (k : string) (v : pyval) : bool :=
  match v with
  | PyStr s => bool_decide (s = k)
  | _ => false
  end.

(** [k in v] for a string [k]. *)
Definition contains (k : string) (v : pyval) : res bool :=
  match v with
  | PyDict d => Ret (bool_decide (is_Some (dict_get d k)))
  | PyList l => Ret (existsb (is_str k) l)
  | PyStr s => Ret (str_contains k s)
  | _ => Raise TypeError
  end.

(** [v[k]] for a string [k]. *)
Definition getitem (v : pyval) (k : string) : res pyval :=
  match v with
  | PyDict d =>
      match dict_get d k with
      | Some x => Ret x
      | None => Raise KeyError
      end
  | _ => Raise TypeError
  end.

Fixpoint chars (s : string) : list pyval :=
  match s with
  | EmptyString => []
  | String c s' => PyStr (String c EmptyString) :: chars s'
  end.

(** The items [for item in v] runs through. *)
Definition iter (v : pyval) : res (list pyval) :=
  match v with
  | PyDict d => Ret ((fun kv => PyStr kv.1) <$> d)
  | PyList l => Ret l
  | PyStr s => Ret (chars s)
  | _ => Raise TypeError
  end.

(** [v.keys()] *)
Definition keys (v : pyval) : res (list pyval) :=
  match v with
  | PyDict d => Ret ((fun kv => PyStr kv.1) <$> d)
  | _ => Raise AttributeError
  end.

End Py.
Import Py.
Open Scope res_scope.

(* ===================================================================== *)
(** * The libraries the program calls                                     *)
(* ===================================================================== *)

(** What the program uses of a parsed document: [select_one], [find_all],
    and of an element its attributes and its [.string]. *)
Module Bs4.

Record Tag : Type := {
  attrs : gmap string string;
  tag_string : option string;
}.

(** [tag.has_attr(key)] *)
Definition has_attr (tag : Tag) (key : string) : bool :=
  bool_decide (is_Some (attrs tag !! key)).

(** [tag[key]] *)
Definition getitem (tag : Tag) (key : string) : res string :=
  match attrs tag !! key with
  | Some v => Ret v
  | None => Raise KeyError
  end.

(** [tag.get(key, default)] *)
Definition get (tag : Tag) (key default : string) : string :=
  match attrs tag !! key with
  | Some v => v
  | None => default
  end.

Record Soup : Type := {
  select_one : string → option Tag;
  find_all : string → list (string * string) → list Tag;
}.

End Bs4.

Module Requests.

Record Response : Type := {
  status_code : Z;
  text : string;
}.

(** [response.raise_for_status()] *)
Definition raise_for_status (r : Response) : res unit :=
  if (400 <=? status_code r)%Z && (status_code r <? 600)%Z then Raise HTTPError
  else Ret tt.

(** [session.get(url, ...)]: the answer of the network to one request. *)
Definition Session : Type := string → res Response.

End Requests.

Record PyEnv : Type := {
  (** [sys.get_int_max_str_digits()] *)
  max_str_digits : nat;
  (** [json.loads] *)
  json_loads : string → res pyval;
  (** [re.findall] of the gallery pattern [var data = (\{.*?\});] with
      [re.DOTALL]: the captured object literals, left to right *)
  findall_var_data : string → list string;
  (** [re.findall] of the pattern for https URLs that end in
      [.jpg], [.jpeg], [.png] or [.gif] *)
  findall_image_urls : string → list string;
  (** [BeautifulSoup(markup, parser)] *)
  BeautifulSoup : string → string → res Bs4.Soup;
  (** [redis.StrictRedis.from_url(url)]: the client is made from the
      address without contacting the server; an address that cannot be
      parsed raises *)
  redis_from_url : string → res unit;
}.

(* ===================================================================== *)
(** * app/core/image_extractor.py                                        *)
(* ===================================================================== *)

Module ImageExtractor.
Import Bs4 Requests.

(** List of known placeholder images to filter out. *)
Definition PLACEHOLDER_IMAGES : list string :=
  [ "grey-pixel.gif"; "transparent-pixel.gif"; "loading-img"; "no-img";
    "no-image"; "placeholder"; "spinner"; "loading"; "blank" ].

Definition image_extensions : list string :=
  [ ".jpg"; ".jpeg"; ".png"; ".gif"; ".webp" ].

(** ** The two dimension patterns [_SX(\d+)_] and [_SY(\d+)_] *)

(** [s] without its prefix [p], when it has that prefix. *)
Fixpoint strip_prefix (p s : string) : option string :=
  match p, s with
  | EmptyString, _ => Some s
  | String a p', String b s' => if bool_decide (a = b) then strip_prefix p' s' else None
  | String _ _, EmptyString => None
  end.

(** The longest run of digits [s] starts with, and what follows it. *)
Fixpoint span_digits (s : string) : string * string :=
  match s with
  | String c s' =>
      if is_digit c then let '(d, r) := span_digits s' in (String c d, r)
      else (EmptyString, s)
  | EmptyString => (EmptyString, EmptyString)
  end.

(** The pattern [_<tok>(\d+)_] matched at the first character of [s]:
    the digits of group 1.  The greedy [\d+] takes the whole run, and no
    shorter run can be followed by an underscore. *)
Definition match_dimension (tok s : string) : option string :=
  match strip_prefix (String "_"%char tok) s with
  | Some rest =>
      let '(digits, after) := span_digits rest in
      if negb (bool_decide (digits = EmptyString)) && startswith after "_"
      then Some digits else None
  | None => None
  end.

(** [re.search(pattern, s)]: the leftmost position where it matches. *)
Fixpoint re_search (here : string → option string) (s : string) : option string :=
  match here s with
  | Some group1 => Some group1
  | None =>
      match s with
      | EmptyString => None
      | String _ s' => re_search here s'
      end
  end.

Section Extractor.
Context (env : PyEnv).

(** Lines 88-101 of [is_valid_image_url], the minimum size requirement:
    [true] when the [return False] of the small image is executed. *)
Definition too_small (url : string) : res bool :=
  if str_contains "SX" url && str_contains "SY" url then
    try_except
      (let sx_match := re_search (match_dimension "SX") url in
       let sy_match := re_search (match_dimension "SY") url in
       match sx_match, sy_match with
       | Some sx, Some sy =>
           width ← py_int (max_str_digits env) sx;
           height ← py_int (max_str_digits env) sy;
           Ret ((width <? 100)%Z || (height <? 100)%Z)
       | _, _ => Ret false
       end)
      [ValueError; AttributeError] (Ret false)
  else Ret false.

(** Check if the URL is a valid image URL and not a placeholder.  The
    argument is any object: strategy 2 passes what it reads from JSON. *)
Definition is_valid_image_url (url : pyval) : res bool :=
  if negb (truthy url) then Ret false else
  match url with
  | PyStr url =>
      if existsb (fun placeholder => str_contains placeholder (lower url)) PLACEHOLDER_IMAGES
      then Ret false else
      let has_extension := existsb (fun ext => str_contains ext (lower url)) image_extensions in
      let is_amazon_image :=
        str_contains "amazon" url || str_contains "images-na.ssl-images-amazon.com" url in
      small ← too_small url;
      if small then Ret false
      else Ret (is_amazon_image && (has_extension || str_contains "images-amazon" url))
  | _ => Raise AttributeError
  end.

Definition _fetch_html (session : Session) (url : string) : res string :=
  response ← session url;
  _ ← raise_for_status response;
  Ret (text response).

Definition _parse_html (html : string) : res Soup :=
  try_except (BeautifulSoup env html "lxml") [Exception]
    (BeautifulSoup env html "html.parser").

(** [return url] after [is_valid_image_url(url)] held: the object is then a
    string (lemma [valid_is_str]). *)
Definition str_of (v : pyval) : option string :=
  match v with
  | PyStr s => Some s
  | _ => None
  end.

(** [for url in urls: if self.is_valid_image_url(url): return url] *)
Definition first_valid (urls : list pyval) : res (option string) :=
  for_return urls (fun url =>
    ok ← is_valid_image_url url;
    if ok then Ret (str_of url) else Ret None).

(** Main image in product details. *)
Definition _extract_method_1 (soup : Soup) : res (option string) :=
  match select_one soup "#imgBlkFront, #ebooksImgBlkFront" with
  | Some img_element =>
      if has_attr img_element "data-a-dynamic-image" then
        try_except
          (raw ← Bs4.getitem img_element "data-a-dynamic-image";
           image_data ← json_loads env raw;
           urls ← keys image_data;
           first_valid urls)
          [Exception] (Ret None)
      else Ret None
  | None => Ret None
  end.

(** Extract from JavaScript data (imageGalleryData, ImageBlockATF). *)
Definition _extract_method_2 (soup : Soup) : res (option string) :=
  let scripts := find_all soup "script" [("type", "text/javascript")] in
  for_return scripts (fun script =>
    match tag_string script with
    | Some script_string =>
        if negb (bool_decide (script_string = EmptyString)) then
          then_
            (if str_contains "imageGalleryData" script_string then
               try_except
                 (let matches := findall_var_data env script_string in
                  for_return matches (fun m =>
                    try_except
                      (data ← json_loads env m;
                       has_gallery ← contains "imageGalleryData" data;
                       if has_gallery then
                         gallery ← Py.getitem data "imageGalleryData";
                         if truthy gallery then
                           items ← iter gallery;
                           for_return items (fun item =>
                             has_main ← contains "mainUrl" item;
                             if has_main then
                               url ← Py.getitem item "mainUrl";
                               ok ← is_valid_image_url url;
                               if ok then Ret (str_of url) else Ret None
                             else Ret None)
                         else Ret None
                       else Ret None)
                      [JSONDecodeError] (Ret None)))
                 [Exception] (Ret None)
             else Ret None)
            (if str_contains "ImageBlockATF" script_string then
               try_except
                 (let urls := findall_image_urls env script_string in
                  first_valid (PyStr <$> urls))
                 [Exception] (Ret None)
             else Ret None)
        else Ret None
    | None => Ret None
    end).

(** Image gallery. *)
Definition _extract_method_3 (soup : Soup) : res (option string) :=
  match select_one soup
    "#imageBlock_feature_div img, #main-image-container img, #imgTagWrapperId img" with
  | Some img_gallery =>
      if has_attr img_gallery "src" then
        src ← Bs4.getitem img_gallery "src";
        ok ← is_valid_image_url (PyStr src);
        if ok then Ret (Some src)
        else if has_attr img_gallery "data-old-hires" then
          old_hires ← Bs4.getitem img_gallery "data-old-hires";
          ok ← is_valid_image_url (PyStr old_hires);
          if ok then Ret (Some old_hires) else Ret None
        else Ret None
      else Ret None
  | None => Ret None
  end.

(** Main content area. *)
Definition _extract_method_4 (soup : Soup) : res (option string) :=
  match select_one soup "#landingImage, #imgBlkFront, #main-image, #img-canvas img" with
  | Some main_image =>
      if has_attr main_image "src" then
        src ← Bs4.getitem main_image "src";
        ok ← is_valid_image_url (PyStr src);
        if ok then Ret (Some src)
        else if has_attr main_image "data-a-dynamic-image" then
          try_except
            (raw ← Bs4.getitem main_image "data-a-dynamic-image";
             image_data ← json_loads env raw;
             image_urls ← keys image_data;
             first_valid image_urls)
            [JSONDecodeError] (Ret None)
        else Ret None
      else Ret None
  | None => Ret None
  end.

(** Book details section. *)
Definition _extract_method_5 (soup : Soup) : res (option string) :=
  match select_one soup
    ".a-fixed-left-grid-col img, .a-fixed-right-grid-col img, .dp-title-col img" with
  | Some book_image =>
      if has_attr book_image "src" then
        src ← Bs4.getitem book_image "src";
        ok ← is_valid_image_url (PyStr src);
        if ok then Ret (Some src) else Ret None
      else Ret None
  | None => Ret None
  end.

(** Any image with 'book' or 'cover' in the URL or alt text. *)
Definition _extract_method_6 (soup : Soup) : res (option string) :=
  for_return (find_all soup "img" []) (fun img =>
    if has_attr img "src" then
      src ← Bs4.getitem img "src";
      let alt := lower (Bs4.get img "alt" "") in
      if str_contains "book" alt || str_contains "cover" alt || str_contains "product" alt then
        ok ← is_valid_image_url (PyStr src);
        if ok then Ret (Some src) else Ret None
      else Ret None
    else Ret None).

(** Any large image that might be a book cover. *)
Definition _extract_method_7 (soup : Soup) : res (option string) :=
  for_return (find_all soup "img" []) (fun img =>
    if has_attr img "src" && has_attr img "width" && has_attr img "height" then
      try_except
        (w ← Bs4.getitem img "width";
         width ← py_int (max_str_digits env) w;
         h ← Bs4.getitem img "height";
         height ← py_int (max_str_digits env) h;
         src ← Bs4.getitem img "src";
         if (200 <=? width)%Z && (200 <=? height)%Z then
           ok ← is_valid_image_url (PyStr src);
           if ok then Ret (Some src) else Ret None
         else Ret None)
        [ValueError; TypeError] (Ret None)
    else Ret None).

(** Step 3 of [extract_image_url]: the list [methods] and the loop over
    it; a method's result is returned when it is truthy. *)
Definition methods : list (Soup → res (option string)) :=
  [ _extract_method_1; _extract_method_2; _extract_method_3; _extract_method_4;
    _extract_method_5; _extract_method_6; _extract_method_7 ].

Definition run_methods (soup : Soup) : res (option string) :=
  for_return methods (fun method =>
    image_url ← method soup;
    match image_url with
    | Some u => if truthy (PyStr u) then Ret (Some u) else Ret None
    | None => Ret None
    end).

Definition extract_image_url (session : Session) (url : string) : res (option string) :=
  try_except
    (html ← _fetch_html session url;
     soup ← _parse_html html;
     run_methods soup)
    [Exception] (Ret None).

End Extractor.
End ImageExtractor.

(* ===================================================================== *)
(** * app/utils/cache.py                                                 *)
(* ===================================================================== *)

(** The networked store as the program uses it: [ping], [get] and [setex].
    An entry is a value with the time-to-live it was written with.  There
    is no clock here: what the passage of time does to the store (expiry)
    is a step of the environment, [environment_step] below. *)
Module Redis.

Record Server : Type := {
  reachable : bool;
  db : gmap string (string * Z);
}.

Definition ping (srv : Server) : res unit :=
  if reachable srv then Ret tt else Raise RedisError.

Definition get (srv : Server) (key : string) : res (option string) :=
  if reachable srv then Ret (fst <$> db srv !! key) else Raise RedisError.

(** [setex key time value]; the server refuses a time that is not positive. *)
Definition setex (srv : Server) (key : string) (time : Z) (value : string)
  : res unit * Server :=
  if negb (reachable srv) then (Raise RedisError, srv)
  else if (time <=? 0)%Z then (Raise RedisError, srv)
  else (Ret tt, {| reachable := reachable srv; db := <[key := (value, time)]> (db srv) |}).

End Redis.

Module Cache.

Definition ONE_MINUTE : Z := 60.
Definition ONE_HOUR : Z := 3600.
Definition ONE_DAY : Z := 86400.
Definition ONE_YEAR : Z := 31536000.
Definition DEFAULT_CACHE_TIMEOUT : Z := ONE_YEAR.
Definition DEFAULT_KEY_PREFIX : string := "amazon_book_image".

(** The file [book_image_cache.pkl]: absent, the pickle of a dict, or a
    file that [open] or [pickle.load] fails on with [e]. *)
Inductive CacheFile : Type :=
| NoFile
| Pickled (cache : gmap string string)
| Unloadable (e : exn).

(** What the cache lives in. [redis_installed]: [import redis] worked. *)
Record World : Type := {
  redis_installed : bool;
  redis_server : Redis.Server;
  cache_file : CacheFile;
}.

(** The value of the configuration entry [CACHE_TIMEOUT]: the integer that
    [Config] computes, or a string or [None] put there by other means. *)
Inductive TimeoutValue : Type :=
| TimeoutInt (z : Z)
| TimeoutStr (s : string)
| TimeoutNone.

(** The entries of the configuration that the cache reads; [None] is an
    absent key. *)
Record Config : Type := {
  CACHE_REDIS_URL : option string;
  CACHE_TIMEOUT : option TimeoutValue;
  CACHE_KEY_PREFIX : option string;
}.

Record BookImageCache : Type := {
  redis_url : option string;
  timeout : Z;
  use_redis : bool;
  redis_client : option string;
  key_prefix : string;
}.

Section WithEnv.
Context (env : PyEnv).

(** [int(config.get('CACHE_TIMEOUT', DEFAULT_CACHE_TIMEOUT))] *)
Definition int_of_timeout (v : option TimeoutValue) : res Z :=
  match v with
  | None => Ret DEFAULT_CACHE_TIMEOUT
  | Some (TimeoutInt z) => Ret z
  | Some (TimeoutStr s) => py_int (max_str_digits env) s
  | Some TimeoutNone => Raise TypeError
  end.

(** [a / b] for two integers, as far as it can fail: the quotient is
    rounded to the nearest float, and it is an [OverflowError] when that is
    beyond the largest float, which is from [2^1024 - 2^970] on. *)
Definition true_divide (a b : Z) : res unit :=
  if (b * (2 ^ 1024 - 2 ^ 970) <=? Z.abs a)%Z then Raise (OtherError "OverflowError")
  else Ret tt.

(** [str(z)] inside an f-string, as far as it can fail: with a digit limit
    in force, an integer of more digits is a [ValueError]. *)
Definition int_str (z : Z) : res unit :=
  if (10 ^ Z.of_nat str_digits_check_threshold <=? Z.abs z)%Z
     && (0 <? max_str_digits env)%nat
     && (10 ^ Z.of_nat (max_str_digits env) <=? Z.abs z)%Z
  then Raise ValueError else Ret tt.

(** Lines 29-37 of the constructor, format timeout for better readability.
    The text only goes to the log; what is kept here is whether the
    f-string can be evaluated. *)
Definition timeout_str (timeout : Z) : res unit :=
  if (ONE_DAY <=? timeout)%Z then
    _ ← true_divide timeout ONE_DAY; int_str timeout
  else if (ONE_HOUR <=? timeout)%Z then
    _ ← true_divide timeout ONE_HOUR; int_str timeout
  else if (ONE_MINUTE <=? timeout)%Z then
    _ ← true_divide timeout ONE_MINUTE; int_str timeout
  else int_str timeout.

(** The constructor. The block that connects is inside
    [try: ... except Exception]: [self.redis_client] is assigned once
    [from_url] has returned, [self.use_redis] once [ping] has. *)
Definition __init__ (config : Config) (w : World) : res BookImageCache :=
  let redis_url := CACHE_REDIS_URL config in
  timeout ← try_except (int_of_timeout (CACHE_TIMEOUT config))
              [TypeError; ValueError] (Ret DEFAULT_CACHE_TIMEOUT);
  _ ← timeout_str timeout;
  let key_prefix := default DEFAULT_KEY_PREFIX (CACHE_KEY_PREFIX config) in
  match redis_url with
  | Some address =>
      if redis_installed w && truthy (PyStr address) && startswith address "redis://" then
        match redis_from_url env address with
        | Ret _ =>
            connected ← try_except
                          (_ ← Redis.ping (redis_server w); Ret true)
                          [Exception] (Ret false);
            Ret {| redis_url := redis_url; timeout := timeout; use_redis := connected;
                   redis_client := Some address; key_prefix := key_prefix |}
        | Raise _ =>
            Ret {| redis_url := redis_url; timeout := timeout; use_redis := false;
                   redis_client := None; key_prefix := key_prefix |}
        end
      else
        Ret {| redis_url := redis_url; timeout := timeout; use_redis := false;
               redis_client := None; key_prefix := key_prefix |}
  | None =>
      Ret {| redis_url := redis_url; timeout := timeout; use_redis := false;
             redis_client := None; key_prefix := key_prefix |}
  end.

End WithEnv.

(** [with open(self.file_db_path, 'rb') as f: cache = pickle.load(f)] *)
Definition load (f : CacheFile) : res (gmap string string) :=
  match f with
  | NoFile => Raise OSError
  | Pickled cache => Ret cache
  | Unloadable e => Raise e
  end.

(** [os.path.exists(self.file_db_path)] *)
Definition exists_ (f : CacheFile) : bool :=
  match f with
  | NoFile => false
  | _ => true
  end.

Definition get (self : BookImageCache) (book_url : string) (w : World)
  : res (option string) :=
  let key := key_prefix self +:+ ":" +:+ book_url in
  if use_redis self then
    result ← Redis.get (redis_server w) key;
    match result with
    | Some bytes =>
        (* [result.decode()] gives back the string that [setex] encoded *)
        if truthy (PyStr bytes) then Ret (Some bytes) else Ret None
    | None => Ret None
    end
  else
    if negb (exists_ (cache_file w)) then Ret None
    else
      cache ← load (cache_file w);
      Ret (cache !! key).

Definition set (self : BookImageCache) (book_url image_url : string) (w : World)
  : res unit * World :=
  let key := key_prefix self +:+ ":" +:+ book_url in
  if use_redis self then
    let '(r, srv) := Redis.setex (redis_server w) key (timeout self) image_url in
    (r, {| redis_installed := redis_installed w; redis_server := srv;
           cache_file := cache_file w |})
  else
    match (if exists_ (cache_file w) then load (cache_file w) else Ret ∅) with
    | Ret cache =>
        (Ret tt, {| redis_installed := redis_installed w; redis_server := redis_server w;
                    cache_file := Pickled (<[key := image_url]> cache) |})
    | Raise e => (Raise e, w)
    end.

End Cache.

(* ===================================================================== *)
(** * app/api/routes.py: the /book-image endpoint                         *)
(* ===================================================================== *)

Module Routes.
Import Cache.

Inductive Response : Type :=
| BadRequest (error : string)
| Found (image_url : string) (cached : bool) (cache_backend : string)
| NotFound (error : string)
| ServerError (e : exn).

(** [current_app]: its configuration and the attribute
    [_book_image_cache], together with the world the cache lives in. *)
Record State : Type := {
  _book_image_cache : option BookImageCache;
  world : World;
}.

Definition backend_name (cache : BookImageCache) : string :=
  if use_redis cache then "redis" else "file".

(** The value of [x] where [if x:] holds, for [x] a string or [None]. *)
Definition if_truthy (x : option string) : option string :=
  match x with
  | Some u => if truthy (PyStr u) then Some u else None
  | None => None
  end.

Section Handler.
Context (env : PyEnv) (config : Config).

(** [get_book_image] for the query parameter [url] ([None] when absent).
    Everything after the two parameter checks runs inside
    [try: ... except Exception], which answers 500. *)
Definition get_book_image (session : Requests.Session) (book_url : option string)
    (st : State) : Response * State :=
  match if_truthy book_url with
  | None => (BadRequest "Missing book URL parameter", st)
  | Some book_url =>
      if negb (str_contains "amazon" (lower book_url)) then
        (BadRequest "Only Amazon book URLs are supported", st)
      else
        match (match _book_image_cache st with
               | Some cache => Ret cache
               | None => __init__ env config (world st)
               end) with
        | Raise e => (ServerError e, st)
        | Ret cache =>
            let st := {| _book_image_cache := Some cache; world := world st |} in
            (* Check cache first *)
            match Cache.get cache book_url (world st) with
            | Raise e => (ServerError e, st)
            | Ret image_url =>
                match if_truthy image_url with
                | Some image_url => (Found image_url true (backend_name cache), st)
                | None =>
                    (* Not cached, extract *)
                    match ImageExtractor.extract_image_url env session book_url with
                    | Raise e => (ServerError e, st)
                    | Ret image_url =>
                        match if_truthy image_url with
                        | Some image_url =>
                            match Cache.set cache book_url image_url (world st) with
                            | (Ret _, w) =>
                                (Found image_url false (backend_name cache),
                                 {| _book_image_cache := Some cache; world := w |})
                            | (Raise e, w) =>
                                (ServerError e,
                                 {| _book_image_cache := Some cache; world := w |})
                            end
                        | None => (NotFound "Could not find book cover image", st)
                        end
                    end
                end
            end
        end
  end.

(** What happens to the stores between two requests: the networked store
    comes and goes and its entries expire, the cache file may be removed. *)
Definition environment_step (w w' : World) : Prop :=
  redis_installed w' = redis_installed w ∧
  Redis.db (redis_server w') ⊆ Redis.db (redis_server w) ∧
  (cache_file w' = cache_file w ∨ cache_file w' = NoFile).

(** The application starts without a cache object, on empty stores. *)
Definition initial (st : State) : Prop :=
  _book_image_cache st = None ∧
  Redis.db (redis_server (world st)) = ∅ ∧
  cache_file (world st) = NoFile.

Inductive reachable : State → Prop :=
| reach_initial st :
    initial st → reachable st
| reach_request st session book_url :
    reachable st → reachable (get_book_image session book_url st).2
| reach_environment st w' :
    reachable st → environment_step (world st) w' →
    reachable {| _book_image_cache := _book_image_cache st; world := w' |}.

(** Every value in either store passes the validator. *)
Definition stored_values_valid (w : World) : Prop :=
  (∀ key value time, Redis.db (redis_server w) !! key = Some (value, time) →
     ImageExtractor.is_valid_image_url env (PyStr value) = Ret true) ∧
  (∀ cache key value, cache_file w = Pickled cache → cache !! key = Some value →
     ImageExtractor.is_valid_image_url env (PyStr value) = Ret true).

End Handler.
End Routes.

(* ===================================================================== *)
(** * app/utils/logging_config.py                                         *)
(* ===================================================================== *)

(** The loggers of the [logging] module as [configure_logging] uses them:
    a logger has a level and a list of handlers, and [logging.getLogger]
    finds it by name in the table of loggers, making it when it is new.
    The root logger is there from the start, under the name [root]. *)
Module LoggingConfig.








End LoggingConfig.

(* ===================================================================== *)
(** * Notions the properties are stated with                              *)
(* ===================================================================== *)

(** [sub] is a substring of [s]. *)
Definition occurs (sub s : string) : Prop :=
  ∃ pre post, s = pre +:+ sub +:+ post.

(** [sub] is a substring of [s] up to the case of the letters of [s]. *)
Definition occurs_nocase (sub s : string) : Prop :=
  ∃ pre mid post, s = pre +:+ mid +:+ post ∧ lower mid = sub.

(** The entry of the cache file under [key]. *)
Definition file_entry (w : Cache.World) (key : string) : option string :=
  match Cache.cache_file w with
  | Cache.Pickled cache => cache !! key
  | _ => None
  end.

(** The entry of the networked store under [key]. *)
Definition redis_entry (w : Cache.World) (key : string) : option string :=
  fst <$> Redis.db (Cache.redis_server w) !! key.

(** The entry under [key] of the store the cache object uses. *)
Definition entry (self : Cache.BookImageCache) (w : Cache.World) (key : string)
  : option string :=
  if Cache.use_redis self then redis_entry w key else file_entry w key.

(** The time-to-live that the configuration asks for: the integer of
    [CACHE_TIMEOUT], or one year when the entry is absent, is [None] or is
    a string that [int] refuses. *)
Definition configured_timeout (env : PyEnv) (config : Cache.Config) : Z :=
  match Cache.CACHE_TIMEOUT config with
  | None => Cache.DEFAULT_CACHE_TIMEOUT
  | Some (Cache.TimeoutInt z) => z
  | Some (Cache.TimeoutStr s) =>
      match py_int (max_str_digits env) s with
      | Ret z => z
      | Raise _ => Cache.DEFAULT_CACHE_TIMEOUT
      end
  | Some Cache.TimeoutNone => Cache.DEFAULT_CACHE_TIMEOUT
  end.

(** The store the cache object uses is in working order: the networked
    store answers and the configured time-to-live is positive, or the cache
    file is absent or the pickle of a dict. *)
Definition in_order (self : Cache.BookImageCache) (w : Cache.World) : Prop :=
  if Cache.use_redis self
  then Redis.reachable (Cache.redis_server w) = true ∧ (0 < Cache.timeout self)%Z
  else ∀ e, Cache.cache_file w ≠ Cache.Unloadable e.

(** [s] is made of the digits [0-9] only. *)
Fixpoint digits_only (s : string) : bool :=
  match s with
  | EmptyString => true
  | String c s' => is_digit c && digits_only s'
  end.

(** The image [img] is one strategy 6 accepts, with source [u]: its [alt]
    text mentions a book, a cover or a product, and [u] is valid. *)
Definition alt_image (env : PyEnv) (img : Bs4.Tag) (u : string) : Prop :=
  Bs4.attrs img !! "src" = Some u ∧
  (occurs_nocase "book" (Bs4.get img "alt" "") ∨
   occurs_nocase "cover" (Bs4.get img "alt" "") ∨
   occurs_nocase "product" (Bs4.get img "alt" "")) ∧
  ImageExtractor.is_valid_image_url env (PyStr u) = Ret true.

(** The image [img] is one strategy 7 accepts, with source [u]: its [width]
    and [height] are numbers of at least 200, and [u] is valid. *)
Definition large_image (env : PyEnv) (img : Bs4.Tag) (u : string) : Prop :=
  Bs4.attrs img !! "src" = Some u ∧
  (∃ w h width height,
     Bs4.attrs img !! "width" = Some w ∧ Bs4.attrs img !! "height" = Some h ∧
     py_int (max_str_digits env) w = Ret width ∧
     py_int (max_str_digits env) h = Ret height ∧
     (200 ≤ width)%Z ∧ (200 ≤ height)%Z) ∧
  ImageExtractor.is_valid_image_url env (PyStr u) = Ret true.

(* ===================================================================== *)
(** * Stores and documents of the examples                                *)
(* ===================================================================== *)

(** Concrete inputs for the examples below.  The environment answers as the
    libraries do on the strings of these examples; elsewhere it is not meant
    to agree with them. *)
Module Example.
Import Bs4 Requests Cache Routes.

Definition quote : string := String (ascii_of_nat 34) EmptyString.

Definition cover_abc : string :=
  "https://m.media-amazon.com/images/I/abc._SX300_SY400_.jpg".
Definition cover_alt : string := "https://m.media-amazon.com/images/I/cover.jpg".
Definition cover_tiny : string :=
  "https://m.media-amazon.com/images/I/abc._SX80_SY80_.jpg".

(** The attribute [data-a-dynamic-image]: a JSON object with one key. *)
Definition dynamic_image : string :=
  "{" +:+ quote +:+ cover_abc +:+ quote +:+ ":[300,400]}".

(** A page on which strategies 1 and 6 both find an image. *)
Definition page : string :=
  "<img id='imgBlkFront' data-a-dynamic-image='{&quot;"
  +:+ cover_abc +:+ "&quot;:[300,400]}'>"
  +:+ "<img src='" +:+ cover_alt +:+ "' alt='Book cover'>".

Definition front : Tag :=
  {| attrs := {[ "id" := "imgBlkFront"; "data-a-dynamic-image" := dynamic_image ]};
     tag_string := None |}.
Definition cover : Tag :=
  {| attrs := {[ "src" := cover_alt; "alt" := "Book cover" ]}; tag_string := None |}.

Definition soup : Soup :=
  {| select_one selector :=
       if bool_decide (selector = "#imgBlkFront, #ebooksImgBlkFront") then Some front
       else if bool_decide
         (selector = "#landingImage, #imgBlkFront, #main-image, #img-canvas img")
       then Some front else None;
     find_all name _ := if bool_decide (name = "img") then [front; cover] else [] |}.

(** A page whose main image has a JSON list where an object is expected,
    followed by the same cover image. *)
Definition page_list : string :=
  "<img id='landingImage' src='/sprite.gif' data-a-dynamic-image='[]'>"
  +:+ "<img src='" +:+ cover_alt +:+ "' alt='Book cover'>".

Definition landing : Tag :=
  {| attrs := {[ "id" := "landingImage"; "src" := "/sprite.gif";
                 "data-a-dynamic-image" := "[]" ]};
     tag_string := None |}.

Definition soup_list : Soup :=
  {| select_one selector :=
       if bool_decide
         (selector = "#landingImage, #imgBlkFront, #main-image, #img-canvas img")
       then Some landing else None;
     find_all name _ := if bool_decide (name = "img") then [landing; cover] else [] |}.

(** A page without any image. *)
Definition page_empty : string := "<p>no image here</p>".
Definition soup_empty : Soup :=
  {| select_one _ := None; find_all _ _ := [] |}.

Definition env : PyEnv :=
  {| max_str_digits := 4300;
     json_loads s :=
       if bool_decide (s = dynamic_image)
       then Ret (PyDict [(cover_abc, PyList [PyInt 300; PyInt 400])])
       else if bool_decide (s = "[]") then Ret (PyList [])
       else Raise JSONDecodeError;
     findall_var_data _ := [];
     findall_image_urls _ := [];
     BeautifulSoup markup _ :=
       if bool_decide (markup = page) then Ret soup
       else if bool_decide (markup = page_list) then Ret soup_list
       else Ret soup_empty;
     redis_from_url address :=
       if bool_decide (address = "redis://localhost:6379/0") then Ret tt
       else Raise ValueError |}.

Definition book_url : string := "https://www.amazon.com/dp/0000000001".
Definition book_url_list : string := "https://www.amazon.com/dp/0000000002".
Definition book_url_empty : string := "https://www.amazon.com/dp/0000000003".

(** The network: three pages are served, every other request fails. *)
Definition session : Session := fun url =>
  if bool_decide (url = book_url) then Ret {| status_code := 200; text := page |}
  else if bool_decide (url = book_url_list)
  then Ret {| status_code := 200; text := page_list |}
  else if bool_decide (url = book_url_empty)
  then Ret {| status_code := 200; text := page_empty |}
  else Raise RequestException.

Definition config : Config :=
  {| CACHE_REDIS_URL := Some "redis://localhost:6379/0";
     CACHE_TIMEOUT := Some (TimeoutInt ONE_YEAR);
     CACHE_KEY_PREFIX := None |}.

Definition file_cache : BookImageCache :=
  {| redis_url := Some "redis://localhost:6379/0"; timeout := ONE_YEAR;
     use_redis := false; redis_client := Some "redis://localhost:6379/0";
     key_prefix := DEFAULT_KEY_PREFIX |}.

Definition redis_cache : BookImageCache :=
  {| redis_url := Some "redis://localhost:6379/0"; timeout := ONE_YEAR;
     use_redis := true; redis_client := Some "redis://localhost:6379/0";
     key_prefix := DEFAULT_KEY_PREFIX |}.

(** No cache file, and a networked store that does not answer. *)
Definition world_offline : World :=
  {| redis_installed := true;
     redis_server := {| Redis.reachable := false; Redis.db := ∅ |};
     cache_file := NoFile |}.

(** No cache file, and an empty networked store that answers. *)
Definition world_online : World :=
  {| redis_installed := true;
     redis_server := {| Redis.reachable := true; Redis.db := ∅ |};
     cache_file := NoFile |}.

(** A cache file that [pickle.load] cannot read. *)
Definition world_corrupt : World :=
  {| redis_installed := true;
     redis_server := {| Redis.reachable := false; Redis.db := ∅ |};
     cache_file := Unloadable UnpicklingError |}.

Definition start : State :=
  {| _book_image_cache := None; world := world_offline |}.

End Example.

(** Further inputs for the examples. *)
Module Example2.
Import Bs4 Requests Cache Routes.

(** Two images: the width of the first is not a number, the second is
    300 by 450 pixels. *)
Definition img_auto : Tag :=
  {| attrs := {[ "src" := Example.cover_abc; "width" := "auto"; "height" := "300" ]};
     tag_string := None |}.
Definition img_big : Tag :=
  {| attrs := {[ "src" := Example.cover_alt; "width" := "300"; "height" := " 450 " ]};
     tag_string := None |}.
Definition soup_large : Soup :=
  {| select_one _ := None;
     find_all name _ := if bool_decide (name = "img") then [img_auto; img_big] else [] |}.

(** A network that answers every request with status 404. *)
Definition session_404 : Session := fun _ =>
  Ret {| status_code := 404; text := "Not Found" |}.

(** A network that is down. *)
Definition session_down : Session := fun _ => Raise RequestException.

(** A configuration whose time-to-live is not a number. *)
Definition config_bad_timeout : Config :=
  {| CACHE_REDIS_URL := Some "redis://localhost:6379/0";
     CACHE_TIMEOUT := Some (TimeoutStr "one hour");
     CACHE_KEY_PREFIX := Some "covers" |}.

(** A configuration whose time-to-live is a one followed by 400 zeros,
    as the variable [CACHE_TIMEOUT] of the environment can make it. *)
Definition config_huge_timeout : Config :=
  {| CACHE_REDIS_URL := Some "redis://localhost:6379/0";
     CACHE_TIMEOUT := Some (TimeoutInt (10 ^ 400));
     CACHE_KEY_PREFIX := None |}.

(** A configuration whose address has a port that is not a number. *)
Definition config_bad_address : Config :=
  {| CACHE_REDIS_URL := Some "redis://localhost:port/0";
     CACHE_TIMEOUT := Some (TimeoutInt ONE_YEAR);
     CACHE_KEY_PREFIX := None |}.

(** The application with its file-backed cache object, nothing stored. *)
Definition state_file : State :=
  {| _book_image_cache := Some Example.file_cache; world := Example.world_offline |}.

(** The application with its networked cache object, whose store has gone
    away since. *)
Definition state_outage : State :=
  {| _book_image_cache := Some Example.redis_cache; world := Example.world_offline |}.

End Example2.

(* ===================================================================== *)
(** * Properties                                                          *)
(* ===================================================================== *)

Import Bs4 Requests ImageExtractor Cache Routes.

(** ** Strings *)

Lemma app_cons c s t : String c s +:+ t = String c (s +:+ t).
Proof. reflexivity. Qed.

Lemma app_empty_l s : EmptyString +:+ s = s.
Proof. reflexivity. Qed.

Lemma app_assoc_str s t u : (s +:+ t) +:+ u = s +:+ t +:+ u.
Proof. induction s as [|c s IH]; [done|]. by rewrite !app_cons, IH. Qed.

Lemma lower_app s t : lower (s +:+ t) = lower s +:+ lower t.
Proof. induction s as [|c s IH]; [done|]. rewrite !app_cons. simpl. by rewrite IH. Qed.

(** A split of [lower s] comes from a split of [s]. *)
Lemma lower_split s a b :
  lower s = a +:+ b → ∃ a' b', s = a' +:+ b' ∧ lower a' = a ∧ lower b' = b.
Proof.
  revert s. induction a as [|c a IH]; intros s Hs.
  - exists EmptyString, s. by rewrite !app_empty_l in *.
  - destruct s as [|d s]; [done|]. rewrite app_cons in Hs. simpl in Hs.
    injection Hs as Hc Hs. destruct (IH _ Hs) as (a' & b' & -> & Ha & Hb).
    exists (String d a'), b'. rewrite app_cons. simpl. by rewrite Hc, Ha.
Qed.

Lemma startswith_true s p : startswith s p = true ↔ ∃ t, s = p +:+ t.
Proof.
  revert s. induction p as [|a p IH]; intros s; simpl.
  - split; [intros _; by exists s | done].
  - destruct s as [|b s].
    + split; [done | intros [t Ht]; by rewrite app_cons in Ht].
    + rewrite andb_true_iff, bool_decide_eq_true, IH. split.
      * intros [-> [t ->]]. by exists t.
      * intros [t Ht]. rewrite app_cons in Ht. injection Ht as -> ->. eauto.
Qed.

Lemma str_contains_occurs sub s : str_contains sub s = true ↔ occurs sub s.
Proof.
  unfold occurs. induction s as [|c s IH]; simpl.
  - rewrite orb_false_r, startswith_true. split.
    + intros [t Ht]. exists EmptyString, t. by rewrite app_empty_l.
    + intros (pre & post & H). destruct pre; [by exists post|by rewrite app_cons in H].
  - rewrite orb_true_iff, startswith_true, IH. split.
    + intros [[t Ht] | (pre & post & ->)].
      * exists EmptyString, t. by rewrite app_empty_l.
      * exists (String c pre), post. by rewrite app_cons.
    + intros (pre & post & H). destruct pre as [|d pre].
      * left. exists post. by rewrite app_empty_l in H.
      * right. rewrite app_cons in H. injection H as -> ->. eauto.
Qed.

Lemma str_contains_lower sub s :
  str_contains sub (lower s) = true ↔ occurs_nocase sub s.
Proof.
  rewrite str_contains_occurs. unfold occurs, occurs_nocase. split.
  - intros (pre & post & H).
    apply lower_split in H as (pre' & rest & -> & <- & H).
    apply lower_split in H as (mid & post' & -> & <- & <-). eauto.
  - intros (pre & mid & post & -> & <-). rewrite !lower_app. eauto.
Qed.

Lemma existsb_nocase (l : list string) s :
  existsb (fun x => str_contains x (lower s)) l = true
  ↔ ∃ x, x ∈ l ∧ occurs_nocase x s.
Proof.
  rewrite existsb_exists. split; intros (x & Hx & H); exists x.
  - by rewrite list_elem_of_In, <- str_contains_lower.
  - by rewrite <- list_elem_of_In, str_contains_lower.
Qed.

(** ** [int] *)

Lemma py_int_raises lim s e : py_int lim s = Raise e → e = ValueError.
Proof.
  unfold py_int. repeat case_match; congruence.
Qed.

(** ** The validator *)

Lemma strip_prefix_Some p s r : strip_prefix p s = Some r → s = p +:+ r.
Proof.
  revert s. induction p as [|a p IH]; intros [|b s] H; simpl in H; simplify_eq; try done.
  case_bool_decide; [|done]. subst. rewrite app_cons. f_equal. by apply IH.
Qed.

(** Where a dimension pattern matches, its two letters occur. *)
Lemma re_search_dimension_contains tok s g :
  re_search (match_dimension tok) s = Some g → str_contains tok s = true.
Proof.
  induction s as [|c s IH]; simpl.
  - unfold match_dimension. simpl. done.
  - destruct (match_dimension tok (String c s)) eqn:Hm.
    + intros _. unfold match_dimension in Hm.
      destruct (strip_prefix _ _) as [rest|] eqn:Hp; [|done].
      apply strip_prefix_Some in Hp. rewrite app_cons in Hp. injection Hp as -> ->.
      apply orb_true_iff. right. apply str_contains_occurs.
      exists EmptyString, rest. by rewrite app_empty_l.
    + intros H. apply IH in H. rewrite H. apply orb_true_r.
Qed.

Lemma too_small_total env url : ∃ b, too_small env url = Ret b.
Proof.
  unfold too_small. case_match; [|eauto].
  destruct (re_search (match_dimension "SX") url) as [sx|]; [|simpl; eauto].
  destruct (re_search (match_dimension "SY") url) as [sy|]; [|simpl; eauto].
  destruct (py_int (max_str_digits env) sx) as [width|e] eqn:Hx; simpl.
  - destruct (py_int (max_str_digits env) sy) as [height|e] eqn:Hy; simpl; [eauto|].
    apply py_int_raises in Hy as ->. simpl. eauto.
  - apply py_int_raises in Hx as ->. simpl. eauto.
Qed.

(** On a string the validator is the conjunction of its three tests. *)
Lemma is_valid_image_url_str env url :
  is_valid_image_url env (PyStr url) =
    if existsb (fun placeholder => str_contains placeholder (lower url)) PLACEHOLDER_IMAGES
    then Ret false
    else small ← too_small env url;
         if small then Ret false
         else Ret ((str_contains "amazon" url
                    || str_contains "images-na.ssl-images-amazon.com" url)
                   && (existsb (fun ext => str_contains ext (lower url)) image_extensions
                       || str_contains "images-amazon" url)).
Proof.
  unfold is_valid_image_url. simpl. case_bool_decide as Hurl; simpl; [|done].
  subst url. by destruct (too_small_total env EmptyString) as [[] ->].
Qed.

(** C4. A candidate that contains one of the fixed placeholder markers, in
    any mix of upper and lower case, is rejected by [is_valid_image_url],
    whatever its host, extension and dimension tokens are. *)
Theorem placeholder_rejected env url marker :
  marker ∈ PLACEHOLDER_IMAGES →
  occurs_nocase marker url →
  is_valid_image_url env (PyStr url) = Ret false.
Proof.
  intros Hin Hocc. rewrite is_valid_image_url_str.
  assert (existsb (fun placeholder => str_contains placeholder (lower url))
            PLACEHOLDER_IMAGES = true) as ->; [|done].
  apply existsb_nocase. eauto.
Qed.

Lemma placeholder_rejected_example :
  "loading" ∈ PLACEHOLDER_IMAGES ∧
  occurs_nocase "loading" "https://images-amazon.com/images/I/LOADING._SX300_SY400_.jpg" ∧
  is_valid_image_url Example.env
    (PyStr "https://images-amazon.com/images/I/LOADING._SX300_SY400_.jpg") = Ret false.
Proof.
  assert ("loading" ∈ PLACEHOLDER_IMAGES) as Hin.
  { apply list_elem_of_In. vm_compute. tauto. }
  assert (occurs_nocase "loading"
            "https://images-amazon.com/images/I/LOADING._SX300_SY400_.jpg") as Hocc.
  { exists "https://images-amazon.com/images/I/", "LOADING", "._SX300_SY400_.jpg".
    split; reflexivity. }
  split; [exact Hin|]. split; [exact Hocc|].
  exact (placeholder_rejected Example.env _ _ Hin Hocc).
Defined.

(** C2. For a candidate without placeholder marker that the dimension check
    lets through, [is_valid_image_url] answers true exactly when the string
    contains an image-host fragment ([amazon] or
    [images-na.ssl-images-amazon.com]) and, besides, either contains one of
    the image extensions up to case, or contains [images-amazon]. *)
Theorem valid_iff_host_and_extension env url :
  (∀ marker, marker ∈ PLACEHOLDER_IMAGES → ¬ occurs_nocase marker url) →
  too_small env url = Ret false →
  ∃ b, is_valid_image_url env (PyStr url) = Ret b ∧
       (b = true ↔
          (occurs "amazon" url ∨ occurs "images-na.ssl-images-amazon.com" url) ∧
          ((∃ ext, ext ∈ image_extensions ∧ occurs_nocase ext url) ∨
           occurs "images-amazon" url)).
Proof.
  intros Hplace Hsmall. rewrite is_valid_image_url_str, Hsmall.
  destruct (existsb _ PLACEHOLDER_IMAGES) eqn:Hex.
  { apply existsb_nocase in Hex as (marker & Hin & Hocc). by destruct (Hplace marker). }
  unfold bind. cbv beta iota. eexists. split; [done|].
  rewrite andb_true_iff, !orb_true_iff, existsb_nocase, !str_contains_occurs. done.
Qed.

Lemma valid_iff_host_and_extension_example :
  ∃ b, is_valid_image_url Example.env (PyStr Example.cover_alt) = Ret b ∧
       (b = true ↔
          (occurs "amazon" Example.cover_alt ∨
           occurs "images-na.ssl-images-amazon.com" Example.cover_alt) ∧
          ((∃ ext, ext ∈ image_extensions ∧ occurs_nocase ext Example.cover_alt) ∨
           occurs "images-amazon" Example.cover_alt)).
Proof.
  apply (valid_iff_host_and_extension Example.env Example.cover_alt).
  - intros marker Hin Hocc.
    assert (existsb (fun x => str_contains x (lower Example.cover_alt))
              PLACEHOLDER_IMAGES = true) as Hex by (apply existsb_nocase; eauto).
    vm_compute in Hex. discriminate Hex.
  - vm_compute. reflexivity.
Defined.

(** C5. When both dimension patterns match and both numbers parse, a width
    or a height below 100 makes [is_valid_image_url] answer false, as for
    the 80 by 80 URL of the specification; when a pattern does not match,
    or its number does not parse, the dimension check lets the candidate
    through; and on a string the validator never raises. *)
Theorem dimension_check env :
  (∀ url sx sy width height,
     re_search (match_dimension "SX") url = Some sx →
     re_search (match_dimension "SY") url = Some sy →
     py_int (max_str_digits env) sx = Ret width →
     py_int (max_str_digits env) sy = Ret height →
     (width < 100 ∨ height < 100)%Z →
     is_valid_image_url env (PyStr url) = Ret false) ∧
  is_valid_image_url env
    (PyStr "https://m.media-amazon.com/images/I/abc._SX80_SY80_.jpg") = Ret false ∧
  (∀ url,
     re_search (match_dimension "SX") url = None ∨
     re_search (match_dimension "SY") url = None ∨
     (∃ sx e, re_search (match_dimension "SX") url = Some sx ∧
              py_int (max_str_digits env) sx = Raise e) ∨
     (∃ sy e, re_search (match_dimension "SY") url = Some sy ∧
              py_int (max_str_digits env) sy = Raise e) →
     too_small env url = Ret false) ∧
  (∀ url, ∃ b, is_valid_image_url env (PyStr url) = Ret b).
Proof.
  split; [|split; [|split]].
  - intros url sx sy width height Hsx Hsy Hw Hh Hlt.
    rewrite is_valid_image_url_str. case_match; [done|].
    unfold too_small.
    rewrite (re_search_dimension_contains _ _ _ Hsx),
      (re_search_dimension_contains _ _ _ Hsy), Hsx, Hsy. simpl.
    rewrite Hw, Hh. simpl.
    assert ((width <? 100)%Z || (height <? 100)%Z = true) as ->; [|done].
    apply orb_true_iff. rewrite !Z.ltb_lt. done.
  - vm_compute. reflexivity.
  - intros url H. unfold too_small. case_match; [|done].
    destruct H as [-> | [-> | [(sx & e & -> & Hx) | (sy & e & -> & Hy)]]].
    + done.
    + by case_match.
    + destruct (re_search (match_dimension "SY") url); [|done]. simpl.
      rewrite Hx. apply py_int_raises in Hx as ->. done.
    + destruct (re_search (match_dimension "SX") url) as [sx|]; [|done]. simpl.
      destruct (py_int (max_str_digits env) sx) as [w|e'] eqn:Hx; simpl.
      * rewrite Hy. apply py_int_raises in Hy as ->. done.
      * apply py_int_raises in Hx as ->. done.
  - intros url. rewrite is_valid_image_url_str. case_match; [eauto|].
    destruct (too_small_total env url) as [[] ->]; simpl; eauto.
Qed.

Lemma dimension_check_example :
  re_search (match_dimension "SX") Example.cover_tiny = Some "80" ∧
  re_search (match_dimension "SY") Example.cover_tiny = Some "80" ∧
  py_int (max_str_digits Example.env) "80" = Ret 80%Z ∧
  is_valid_image_url Example.env (PyStr Example.cover_tiny) = Ret false ∧
  re_search (match_dimension "SX") "https://m.media-amazon.com/images/I/abc._SXL_.jpg"
    = None ∧
  too_small Example.env "https://m.media-amazon.com/images/I/abc._SXL_.jpg" = Ret false.
Proof.
  assert (re_search (match_dimension "SX") Example.cover_tiny = Some "80") as Hsx
    by (vm_compute; reflexivity).
  assert (re_search (match_dimension "SY") Example.cover_tiny = Some "80") as Hsy
    by (vm_compute; reflexivity).
  assert (py_int (max_str_digits Example.env) "80" = Ret 80%Z) as Hint
    by (vm_compute; reflexivity).
  assert (re_search (match_dimension "SX")
            "https://m.media-amazon.com/images/I/abc._SXL_.jpg" = None) as Hnone
    by (vm_compute; reflexivity).
  split; [exact Hsx|]. split; [exact Hsy|]. split; [exact Hint|].
  split; [|split; [exact Hnone|]].
  - apply (proj1 (dimension_check Example.env) Example.cover_tiny "80" "80" 80%Z 80%Z);
      try assumption. left. lia.
  - apply (proj1 (proj2 (proj2 (dimension_check Example.env)))). left. exact Hnone.
Defined.

(** ** Blocks, handlers and loops *)

Lemma bind_Ret {A B} (m : res A) (k : A → res B) r :
  bind m k = Ret r → ∃ a, m = Ret a ∧ k a = Ret r.
Proof. destruct m; simpl; [eauto|done]. Qed.

Lemma try_except_returns {A} (body : res (option A)) classes v :
  try_except body classes (Ret None) = Ret (Some v) → body = Ret (Some v).
Proof. destruct body; simpl; [done|]. by case_match. Qed.

Lemma try_except_Exception {A} (body handler : res A) :
  try_except body [Exception] handler =
    match body with
    | Ret a => Ret a
    | Raise _ => handler
    end.
Proof. by destruct body. Qed.

Lemma then_returns {B} (first second : res (option B)) v :
  then_ first second = Ret (Some v) →
  first = Ret (Some v) ∨ (first = Ret None ∧ second = Ret (Some v)).
Proof. destruct first as [[]|]; simpl; naive_solver. Qed.

Lemma for_return_returns {A B} (l : list A) (body : A → res (option B)) v :
  for_return l body = Ret (Some v) → ∃ x, x ∈ l ∧ body x = Ret (Some v).
Proof.
  induction l as [|x l IH]; simpl; [done|].
  destruct (body x) as [[w|]|] eqn:Hx; simpl; [|intros H|done].
  - intros [= ->]. exists x. split; [left|done].
  - destruct (IH H) as (y & Hy & Hb). exists y. split; [by right|done].
Qed.

(** The loop returns what the first body that returns does. *)
Lemma for_return_first {A B} (l1 l2 : list A) x (body : A → res (option B)) v :
  (∀ y, y ∈ l1 → body y = Ret None) →
  body x = Ret (Some v) →
  for_return (l1 ++ x :: l2) body = Ret (Some v).
Proof.
  induction l1 as [|y l1 IH]; intros Hnone Hx; simpl.
  - by rewrite Hx.
  - rewrite (Hnone y) by left. simpl. apply IH; [|done].
    intros z Hz. apply Hnone. by right.
Qed.

Lemma for_return_none {A B} (l : list A) (body : A → res (option B)) :
  (∀ y, y ∈ l → body y = Ret None) → for_return l body = Ret None.
Proof.
  induction l as [|y l IH]; intros Hnone; simpl; [done|].
  rewrite (Hnone y) by left. simpl. apply IH. intros z Hz. apply Hnone. by right.
Qed.

(** A loop raises what the first body that does not fall through raises. *)
Lemma for_return_raises {A B} (l1 l2 : list A) x (body : A → res (option B)) e :
  (∀ y, y ∈ l1 → body y = Ret None) →
  body x = Raise e →
  for_return (l1 ++ x :: l2) body = Raise e.
Proof.
  induction l1 as [|y l1 IH]; intros Hnone Hx; simpl.
  - by rewrite Hx.
  - rewrite (Hnone y) by left. simpl. apply IH; [|done].
    intros z Hz. apply Hnone. by right.
Qed.

(** ** What the strategies return *)

Section Strategies.
Context (env : PyEnv).

(** Only a non-empty string is valid. *)
Lemma valid_is_str v :
  is_valid_image_url env v = Ret true → ∃ s, v = PyStr s ∧ s ≠ EmptyString.
Proof.
  unfold is_valid_image_url. destruct (truthy v) eqn:Ht; simpl; [|done].
  destruct v; try done. intros _. eexists. split; [done|].
  simpl in Ht. apply negb_true_iff, bool_decide_eq_false in Ht. done.
Qed.

Lemma validated_return url u :
  (ok ← is_valid_image_url env url; if ok then Ret (str_of url) else Ret None)
    = Ret (Some u) →
  is_valid_image_url env (PyStr u) = Ret true.
Proof.
  intros H. apply bind_Ret in H as ([] & Hv & H); [|done].
  destruct (valid_is_str _ Hv) as (s & -> & _). simpl in H. by simplify_eq.
Qed.

Lemma validated_src src u :
  (ok ← is_valid_image_url env (PyStr src); if ok then Ret (Some src) else Ret None)
    = Ret (Some u) →
  is_valid_image_url env (PyStr u) = Ret true.
Proof. intros H. apply bind_Ret in H as ([] & Hv & H); by simplify_eq. Qed.

Lemma first_valid_returns urls u :
  first_valid env urls = Ret (Some u) → is_valid_image_url env (PyStr u) = Ret true.
Proof.
  intros H. apply for_return_returns in H as (url & _ & H). by apply validated_return in H.
Qed.

(** One step of reading a result backwards through the code. *)
Ltac back H :=
  first
    [ apply try_except_returns in H
    | apply first_valid_returns in H
    | apply validated_return in H
    | apply validated_src in H
    | apply then_returns in H as [H | [_ H]]
    | let x := fresh "x" in let Hx := fresh "Hx" in
      apply bind_Ret in H as (x & Hx & H)
    | let x := fresh "x" in apply for_return_returns in H as (x & _ & H)
    | discriminate H
    | case_match ].

Ltac backwards H := repeat (back H); by simplify_eq.

Lemma method_1_valid soup u :
  _extract_method_1 env soup = Ret (Some u) → is_valid_image_url env (PyStr u) = Ret true.
Proof. unfold _extract_method_1. intros H. backwards H. Qed.

Lemma method_2_valid soup u :
  _extract_method_2 env soup = Ret (Some u) → is_valid_image_url env (PyStr u) = Ret true.
Proof. unfold _extract_method_2. intros H. backwards H. Qed.

Lemma method_3_valid soup u :
  _extract_method_3 env soup = Ret (Some u) → is_valid_image_url env (PyStr u) = Ret true.
Proof. unfold _extract_method_3. intros H. backwards H. Qed.

Lemma method_4_valid soup u :
  _extract_method_4 env soup = Ret (Some u) → is_valid_image_url env (PyStr u) = Ret true.
Proof. unfold _extract_method_4. intros H. backwards H. Qed.

Lemma method_5_valid soup u :
  _extract_method_5 env soup = Ret (Some u) → is_valid_image_url env (PyStr u) = Ret true.
Proof. unfold _extract_method_5. intros H. backwards H. Qed.

Lemma method_6_valid soup u :
  _extract_method_6 env soup = Ret (Some u) → is_valid_image_url env (PyStr u) = Ret true.
Proof. unfold _extract_method_6. intros H. backwards H. Qed.

Lemma method_7_valid soup u :
  _extract_method_7 env soup = Ret (Some u) → is_valid_image_url env (PyStr u) = Ret true.
Proof. unfold _extract_method_7. intros H. backwards H. Qed.

(** Each of the seven methods returns a URL only after it has passed
    [is_valid_image_url]. *)
Lemma methods_return_valid method soup u :
  method ∈ methods env → method soup = Ret (Some u) →
  is_valid_image_url env (PyStr u) = Ret true.
Proof.
  unfold methods. rewrite !elem_of_cons, elem_of_nil.
  intros [->|[->|[->|[->|[->|[->|[->|[]]]]]]]];
    eauto using method_1_valid, method_2_valid, method_3_valid, method_4_valid,
      method_5_valid, method_6_valid, method_7_valid.
Qed.

End Strategies.

(** ** The chain *)

Section Chain.
Context (env : PyEnv).

(** The body of the loop of [extract_image_url]. *)
Local Abbreviation body soup :=
  (fun method : Soup → res (option string) =>
     image_url ← method soup;
     match image_url with
     | Some u => if truthy (PyStr u) then Ret (Some u) else Ret None
     | None => Ret None
     end).

Lemma body_returns method soup u :
  method ∈ methods env → method soup = Ret (Some u) → body soup method = Ret (Some u).
Proof.
  intros Hin Hm. simpl. rewrite Hm. simpl.
  destruct (valid_is_str env _ (methods_return_valid env _ _ _ Hin Hm)) as (s & [= <-] & Hs).
  by rewrite bool_decide_eq_false_2.
Qed.

Lemma body_none (method : Soup → res (option string)) soup :
  method soup = Ret None → body soup method = Ret None.
Proof. intros Hm. simpl. by rewrite Hm. Qed.

Lemma body_raises (method : Soup → res (option string)) soup e :
  method soup = Raise e → body soup method = Raise e.
Proof. intros Hm. simpl. by rewrite Hm. Qed.

(** The methods before position [i] are those at the positions below. *)
Lemma split_at {A} (l : list A) i x :
  l !! i = Some x →
  l = take i l ++ x :: drop (S i) l ∧
  ∀ y, y ∈ take i l → ∃ j, (j < i)%nat ∧ l !! j = Some y.
Proof.
  intros Hi. split; [by rewrite take_drop_middle|].
  intros y [j Hj]%list_elem_of_lookup. apply lookup_take_Some in Hj as [??]. eauto.
Qed.

Lemma run_methods_first soup i method u :
  methods env !! i = Some method →
  (∀ j earlier, (j < i)%nat → methods env !! j = Some earlier → earlier soup = Ret None) →
  method soup = Ret (Some u) →
  run_methods env soup = Ret (Some u).
Proof.
  intros Hi Hearlier Hm. unfold run_methods.
  destruct (split_at _ _ _ Hi) as [Heq Htake]. rewrite Heq.
  apply for_return_first.
  - intros y (j & Hj & Hy)%Htake. apply body_none. eauto.
  - apply body_returns; [|done]. by eapply list_elem_of_lookup_2.
Qed.

Lemma run_methods_none soup :
  (∀ method, method ∈ methods env → method soup = Ret None) →
  run_methods env soup = Ret None.
Proof. intros H. apply for_return_none. intros y Hy. apply body_none. auto. Qed.

Lemma run_methods_raises soup i method e :
  methods env !! i = Some method →
  (∀ j earlier, (j < i)%nat → methods env !! j = Some earlier → earlier soup = Ret None) →
  method soup = Raise e →
  run_methods env soup = Raise e.
Proof.
  intros Hi Hearlier Hm. unfold run_methods.
  destruct (split_at _ _ _ Hi) as [Heq Htake]. rewrite Heq.
  apply for_return_raises.
  - intros y (j & Hj & Hy)%Htake. apply body_none. eauto.
  - by apply body_raises.
Qed.

Lemma run_methods_valid soup u :
  run_methods env soup = Ret (Some u) → is_valid_image_url env (PyStr u) = Ret true.
Proof.
  intros H. apply for_return_returns in H as (method & Hin & H).
  apply bind_Ret in H as ([v|] & Hm & H); [|done].
  case_match; [|done]. simplify_eq. by eapply methods_return_valid.
Qed.

(** [extract_image_url] once the page is fetched and parsed. *)
Lemma extract_with_soup session url html soup :
  _fetch_html session url = Ret html →
  _parse_html env html = Ret soup →
  extract_image_url env session url =
    match run_methods env soup with
    | Ret r => Ret r
    | Raise _ => Ret None
    end.
Proof.
  intros Hf Hp. unfold extract_image_url. rewrite try_except_Exception, Hf. simpl.
  rewrite Hp. simpl. by destruct (run_methods env soup).
Qed.

Lemma extract_image_url_total session url :
  ∃ r, extract_image_url env session url = Ret r.
Proof.
  unfold extract_image_url. rewrite try_except_Exception. case_match; eauto.
Qed.

(** What [extract_image_url] returns has passed the validator. *)
Lemma extract_image_url_valid session url u :
  extract_image_url env session url = Ret (Some u) →
  is_valid_image_url env (PyStr u) = Ret true.
Proof.
  unfold extract_image_url. intros H. apply try_except_returns in H.
  apply bind_Ret in H as (html & _ & H). apply bind_Ret in H as (soup & _ & H).
  by apply run_methods_valid in H.
Qed.

End Chain.

(** As long as no method raises, [extract_image_url] runs the seven methods
    in the order 1 to 7 on the parsed document and returns the URL of the
    first one that returns one, the methods before it having returned
    nothing; that URL has passed [is_valid_image_url]; when all seven return
    nothing the result is [None]; and when methods 1 and 6 both return a
    URL, the result is that of method 1. *)
Lemma chain_returns_first_candidate env session url html soup :
  _fetch_html session url = Ret html →
  _parse_html env html = Ret soup →
  methods env =
    [ _extract_method_1 env; _extract_method_2 env; _extract_method_3 env;
      _extract_method_4 env; _extract_method_5 env; _extract_method_6 env;
      _extract_method_7 env ] ∧
  (∀ i method u,
     methods env !! i = Some method →
     (∀ j earlier, (j < i)%nat → methods env !! j = Some earlier →
        earlier soup = Ret None) →
     method soup = Ret (Some u) →
     is_valid_image_url env (PyStr u) = Ret true ∧
     extract_image_url env session url = Ret (Some u)) ∧
  ((∀ method, method ∈ methods env → method soup = Ret None) →
     extract_image_url env session url = Ret None) ∧
  (∀ u1 u6,
     _extract_method_1 env soup = Ret (Some u1) →
     _extract_method_6 env soup = Ret (Some u6) →
     extract_image_url env session url = Ret (Some u1)).
Proof.
  intros Hf Hp. rewrite (extract_with_soup env _ _ _ _ Hf Hp).
  split; [done|]. split; [|split].
  - intros i method u Hi Hearlier Hm. split.
    + eapply methods_return_valid; [|done]. by eapply list_elem_of_lookup_2.
    + by rewrite (run_methods_first env soup i method u).
  - intros Hnone. by rewrite run_methods_none.
  - intros u1 u6 H1 _.
    rewrite (run_methods_first env soup 0 (_extract_method_1 env) u1); [done..| |done].
    intros j earlier Hj. lia.
Qed.

Lemma chain_returns_first_candidate_example :
  _extract_method_1 Example.env Example.soup = Ret (Some Example.cover_abc) ∧
  _extract_method_6 Example.env Example.soup = Ret (Some Example.cover_alt) ∧
  extract_image_url Example.env Example.session Example.book_url
    = Ret (Some Example.cover_abc).
Proof.
  assert (_extract_method_1 Example.env Example.soup = Ret (Some Example.cover_abc)) as H1
    by (vm_compute; reflexivity).
  assert (_extract_method_6 Example.env Example.soup = Ret (Some Example.cover_alt)) as H6
    by (vm_compute; reflexivity).
  split; [exact H1|]. split; [exact H6|].
  refine (proj2 (proj2 (proj2
    (chain_returns_first_candidate Example.env Example.session Example.book_url
       Example.page Example.soup _ _))) _ _ H1 H6);
    vm_compute; reflexivity.
Defined.

(** C1. The chain does not always return the first URL that a method
    returns. Method 4 catches [JSONDecodeError] only, where method 1 catches
    [Exception] around the same [.keys()] call: on a main image whose
    [data-a-dynamic-image] is the JSON list [[]], methods 1, 2 and 3 return
    nothing, method 4 raises [AttributeError], and [extract_image_url]
    returns [None], although method 5 returns nothing and method 6 returns
    a URL that passes [is_valid_image_url]. *)
Theorem chain_stops_when_method_4_raises :
  _fetch_html Example.session Example.book_url_list = Ret Example.page_list ∧
  _parse_html Example.env Example.page_list = Ret Example.soup_list ∧
  Bs4.getitem Example.landing "data-a-dynamic-image" = Ret "[]"%string ∧
  json_loads Example.env "[]" = Ret (PyList []) ∧
  _extract_method_1 Example.env Example.soup_list = Ret None ∧
  _extract_method_2 Example.env Example.soup_list = Ret None ∧
  _extract_method_3 Example.env Example.soup_list = Ret None ∧
  _extract_method_4 Example.env Example.soup_list = Raise AttributeError ∧
  _extract_method_5 Example.env Example.soup_list = Ret None ∧
  _extract_method_6 Example.env Example.soup_list = Ret (Some Example.cover_alt) ∧
  is_valid_image_url Example.env (PyStr Example.cover_alt) = Ret true ∧
  extract_image_url Example.env Example.session Example.book_url_list = Ret None.
Proof. repeat split; vm_compute; reflexivity. Qed.

(** C3. [extract_image_url] always returns and never raises: an exception
    of the fetch, of the parser or of a strategy becomes the result [None],
    and so does a document in which no strategy finds an image. *)
Theorem extract_image_url_never_raises env session url :
  (∃ r, extract_image_url env session url = Ret r) ∧
  (∀ e, _fetch_html session url = Raise e →
     extract_image_url env session url = Ret None) ∧
  (∀ html e, _fetch_html session url = Ret html → _parse_html env html = Raise e →
     extract_image_url env session url = Ret None) ∧
  (∀ html soup i method e,
     _fetch_html session url = Ret html → _parse_html env html = Ret soup →
     methods env !! i = Some method →
     (∀ j earlier, (j < i)%nat → methods env !! j = Some earlier →
        earlier soup = Ret None) →
     method soup = Raise e →
     extract_image_url env session url = Ret None) ∧
  (∀ html soup,
     _fetch_html session url = Ret html → _parse_html env html = Ret soup →
     (∀ method, method ∈ methods env → method soup = Ret None) →
     extract_image_url env session url = Ret None).
Proof.
  split; [apply extract_image_url_total|]. split; [|split; [|split]].
  - intros e Hf. unfold extract_image_url. by rewrite try_except_Exception, Hf.
  - intros html e Hf Hp. unfold extract_image_url.
    rewrite try_except_Exception, Hf. simpl. by rewrite Hp.
  - intros html soup i method e Hf Hp Hi Hearlier Hm.
    rewrite (extract_with_soup env _ _ _ _ Hf Hp).
    by rewrite (run_methods_raises env soup i method e).
  - intros html soup Hf Hp Hnone.
    rewrite (extract_with_soup env _ _ _ _ Hf Hp). by rewrite run_methods_none.
Qed.

Lemma extract_image_url_never_raises_example :
  (* the network fails *)
  (_fetch_html Example.session "https://www.amazon.com/dp/none" = Raise RequestException ∧
   extract_image_url Example.env Example.session "https://www.amazon.com/dp/none"
     = Ret None) ∧
  (* strategy 4 raises on a JSON list *)
  (_extract_method_4 Example.env Example.soup_list = Raise AttributeError ∧
   extract_image_url Example.env Example.session Example.book_url_list = Ret None) ∧
  (* no strategy matches *)
  extract_image_url Example.env Example.session Example.book_url_empty = Ret None.
Proof.
  pose proof (extract_image_url_never_raises Example.env Example.session
                "https://www.amazon.com/dp/none") as (_ & Hfetch & _).
  pose proof (extract_image_url_never_raises Example.env Example.session
                Example.book_url_list) as (_ & _ & _ & Hraise & _).
  pose proof (extract_image_url_never_raises Example.env Example.session
                Example.book_url_empty) as (_ & _ & _ & _ & Hnone).
  assert (_fetch_html Example.session "https://www.amazon.com/dp/none"
          = Raise RequestException) as Hf by (vm_compute; reflexivity).
  assert (_extract_method_4 Example.env Example.soup_list = Raise AttributeError) as H4
    by (vm_compute; reflexivity).
  split; [split; [exact Hf | exact (Hfetch _ Hf)]|].
  split; [split; [exact H4|]|].
  - apply (Hraise Example.page_list Example.soup_list 3%nat
             (_extract_method_4 Example.env) AttributeError);
      [vm_compute; reflexivity | vm_compute; reflexivity | reflexivity | | exact H4].
    intros j earlier Hj Hlook.
    destruct j as [|[|[|j]]]; [| | |lia]; injection Hlook as <-; vm_compute; reflexivity.
  - apply (Hnone Example.page_empty Example.soup_empty);
      [vm_compute; reflexivity | vm_compute; reflexivity |].
    intros method Hin. unfold methods in Hin.
    rewrite !elem_of_cons, elem_of_nil in Hin.
    destruct Hin as [->|[->|[->|[->|[->|[->|[->|[]]]]]]]]; vm_compute; reflexivity.
Defined.

(** ** The cache *)

(** A key belongs to one page URL. *)
Lemma key_inj prefix u u' : prefix +:+ ":" +:+ u = prefix +:+ ":" +:+ u' → u = u'.
Proof. intros H. by do 2 apply String.app_inj in H. Qed.

Lemma file_get self u w :
  use_redis self = false → (∀ e, cache_file w ≠ Unloadable e) →
  Cache.get self u w = Ret (file_entry w (key_prefix self +:+ ":" +:+ u)).
Proof.
  intros Hfile Hload. unfold Cache.get, file_entry. rewrite Hfile.
  destruct (cache_file w) as [|cache|e]; simpl; [done..|]. by destruct (Hload e).
Qed.

Lemma file_set self u v w :
  use_redis self = false → (∀ e, cache_file w ≠ Unloadable e) →
  ∃ cache,
    Cache.set self u v w =
      (Ret tt, {| redis_installed := redis_installed w; redis_server := redis_server w;
                  cache_file := Pickled (<[key_prefix self +:+ ":" +:+ u := v]> cache) |}) ∧
    ∀ key, cache !! key = file_entry w key.
Proof.
  intros Hfile Hload. unfold Cache.set, file_entry. rewrite Hfile.
  destruct (cache_file w) as [|cache|e]; simpl.
  - exists ∅. split; [done|]. intros key. apply lookup_empty.
  - by exists cache.
  - by destruct (Hload e).
Qed.

(** Set then get on the file backend. *)
Lemma file_round_trip self u v w :
  use_redis self = false → (∀ e, cache_file w ≠ Unloadable e) →
  (Cache.set self u v w).1 = Ret tt ∧
  Cache.get self u (Cache.set self u v w).2 = Ret (Some v) ∧
  file_entry (Cache.set self u v w).2 (key_prefix self +:+ ":" +:+ u) = Some v ∧
  redis_server (Cache.set self u v w).2 = redis_server w.
Proof.
  intros Hfile Hload. destruct (file_set self u v w Hfile Hload) as (cache & -> & _).
  simpl. split; [done|]. rewrite file_get by done.
  unfold file_entry. simpl. by rewrite lookup_insert_eq.
Qed.

Lemma redis_round_trip self u v w :
  use_redis self = true → v ≠ EmptyString →
  Redis.reachable (redis_server w) = true → (0 < timeout self)%Z →
  (Cache.set self u v w).1 = Ret tt ∧
  Cache.get self u (Cache.set self u v w).2 = Ret (Some v) ∧
  redis_entry (Cache.set self u v w).2 (key_prefix self +:+ ":" +:+ u) = Some v.
Proof.
  intros Hredis Hv Hup Htime. unfold Cache.set, Cache.get, redis_entry, Redis.setex, Redis.get.
  rewrite Hredis.
  rewrite Hup. simpl.
  destruct (Z.leb_spec (timeout self) 0) as [?|_]; [lia|]. simpl.
  rewrite lookup_insert_eq. simpl. by rewrite bool_decide_eq_false_2.
Qed.

(** C6. On a store in working order, [set(u, v)] followed at once by
    [get(u)] returns [v], on the networked backend and on the file backend;
    [set] writes the entry under the key [prefix:u] of that backend and
    [get] reads the entry under the same key. *)
Theorem cache_round_trip self u v w :
  v ≠ EmptyString →
  in_order self w →
  (Cache.set self u v w).1 = Ret tt ∧
  Cache.get self u (Cache.set self u v w).2 = Ret (Some v) ∧
  entry self (Cache.set self u v w).2 (key_prefix self +:+ ":" +:+ u) = Some v ∧
  (∀ w0 x, in_order self w0 → x ≠ EmptyString →
     Cache.get self u w0 = Ret (Some x)
     ↔ entry self w0 (key_prefix self +:+ ":" +:+ u) = Some x).
Proof.
  intros Hv Horder. unfold in_order, entry in *.
  destruct (use_redis self) eqn:Hbackend.
  - destruct Horder as [Hup Htime].
    destruct (redis_round_trip self u v w Hbackend Hv Hup Htime) as (? & ? & ?).
    repeat (split; [done|]).
    intros w0 x [Hup0 _] Hx. unfold Cache.get, redis_entry, Redis.get.
    rewrite Hbackend, Hup0. simpl.
    destruct (Redis.db _ !! _) as [[y t]|]; simpl; [|done].
    case_bool_decide; simpl; naive_solver.
  - destruct (file_round_trip self u v w Hbackend Horder) as (? & ? & ? & _).
    repeat (split; [done|]).
    intros w0 x Hload _. rewrite file_get by done.
    split; [by intros [= ->] | by intros ->].
Qed.

Lemma cache_round_trip_example :
  (in_order Example.file_cache Example.world_offline ∧
   Cache.get Example.file_cache Example.book_url
     (Cache.set Example.file_cache Example.book_url Example.cover_abc
        Example.world_offline).2
   = Ret (Some Example.cover_abc)) ∧
  (in_order Example.redis_cache Example.world_online ∧
   Cache.get Example.redis_cache Example.book_url
     (Cache.set Example.redis_cache Example.book_url Example.cover_abc
        Example.world_online).2
   = Ret (Some Example.cover_abc)).
Proof.
  assert (Example.cover_abc ≠ EmptyString) as Hv by discriminate.
  assert (in_order Example.file_cache Example.world_offline) as Hfile
    by (intros e; discriminate).
  assert (in_order Example.redis_cache Example.world_online) as Hredis
    by (split; [reflexivity | reflexivity]).
  split.
  - split; [exact Hfile|].
    exact (proj1 (proj2 (cache_round_trip Example.file_cache Example.book_url
                           Example.cover_abc Example.world_offline Hv Hfile))).
  - split; [exact Hredis|].
    exact (proj1 (proj2 (cache_round_trip Example.redis_cache Example.book_url
                           Example.cover_abc Example.world_online Hv Hredis))).
Defined.

(** ** The constructor *)

Lemma init_timeout_value env config :
  try_except (int_of_timeout env (CACHE_TIMEOUT config)) [TypeError; ValueError]
    (Ret DEFAULT_CACHE_TIMEOUT) = Ret (configured_timeout env config).
Proof.
  unfold configured_timeout. destruct (CACHE_TIMEOUT config) as [[z|s|]|]; simpl; try done.
  destruct (py_int _ s) eqn:Hs; simpl; [done|].
  apply py_int_raises in Hs as ->. done.
Qed.

(** The constructor raises exactly when the line that formats the timeout
    for the log does. *)
Lemma init_raises env config w e :
  __init__ env config w = Raise e ↔
  timeout_str env (configured_timeout env config) = Raise e.
Proof.
  unfold __init__. rewrite init_timeout_value. cbn [bind].
  destruct (timeout_str env _) as [[]|e']; cbn [bind];
    [|split; intros [= ->]; done].
  split; [|done]. destruct (CACHE_REDIS_URL config) as [address|]; [|done].
  case_match; [|done]. destruct (redis_from_url env address); [|done].
  rewrite try_except_Exception. by destruct (Redis.ping _).
Qed.

(** What the constructor returns. *)
Lemma init_returns env config w self :
  __init__ env config w = Ret self →
  timeout_str env (configured_timeout env config) = Ret tt ∧
  timeout self = configured_timeout env config ∧
  key_prefix self = default DEFAULT_KEY_PREFIX (CACHE_KEY_PREFIX config) ∧
  redis_url self = CACHE_REDIS_URL config ∧
  (use_redis self = true ↔
     redis_installed w = true ∧
     (∃ address, CACHE_REDIS_URL config = Some address ∧
                 startswith address "redis://" = true ∧
                 redis_from_url env address = Ret tt) ∧
     Redis.reachable (redis_server w) = true) ∧
  (is_Some (redis_client self) ↔
     redis_installed w = true ∧
     ∃ address, CACHE_REDIS_URL config = Some address ∧
                startswith address "redis://" = true ∧
                redis_from_url env address = Ret tt).
Proof.
  unfold __init__. rewrite init_timeout_value. cbn [bind].
  destruct (timeout_str env _) as [[]|e']; cbn [bind]; [|done].
  assert (∀ P : Prop, false = true ↔ P ∧ False) as Hno by (intros P; split; [done|tauto]).
  destruct (CACHE_REDIS_URL config) as [address|] eqn:Hurl.
  - destruct (redis_installed w) eqn:Hinst; cbn [andb].
    + destruct (startswith address "redis://") eqn:Hsw.
      * assert (truthy (PyStr address) = true) as -> by (by destruct address).
        cbn [andb]. destruct (redis_from_url env address) as [[]|e'] eqn:Hfrom.
        -- unfold Redis.ping.
           destruct (Redis.reachable (redis_server w)) eqn:Hup;
             cbn [bind try_except existsb isinstance orb];
             intros [= <-]; cbn [use_redis redis_client timeout key_prefix redis_url];
             repeat (split; [done|]); split.
           ++ split; [|done]. intros _. eauto 10.
           ++ split; [eauto 10|done].
           ++ split; [done|]. by intros (_ & _ & ?).
           ++ split; [eauto 10|done].
        -- intros [= <-]; cbn [use_redis redis_client timeout key_prefix redis_url].
        repeat (split; [done|]). split.
           ++ split; [done|]. intros (_ & (a & [= <-] & _ & Hr) & _). congruence.
           ++ split; [by intros [? ?]|]. intros (_ & a & [= <-] & _ & Hr). congruence.
      * rewrite andb_false_r. intros [= <-]; cbn [use_redis redis_client timeout key_prefix redis_url].
        repeat (split; [done|]). split.
        -- split; [done|]. intros (_ & (a & [= <-] & Hr & _) & _). congruence.
        -- split; [by intros [? ?]|]. intros (_ & a & [= <-] & Hr & _). congruence.
    + intros [= <-]; cbn [use_redis redis_client timeout key_prefix redis_url].
        repeat (split; [done|]). split.
      * split; [done|]. by intros [? _].
      * split; [by intros [? ?]|]. by intros [? _].
  - intros [= <-]; cbn [use_redis redis_client timeout key_prefix redis_url].
        repeat (split; [done|]). split.
    + split; [done|]. by intros (_ & (a & ? & _) & _).
    + split; [by intros [? ?]|]. by intros (_ & a & ? & _).
Qed.

Lemma init_unreachable env config w self :
  Redis.reachable (redis_server w) = false →
  __init__ env config w = Ret self → use_redis self = false.
Proof.
  intros Hdown (_ & _ & _ & _ & Huse & _)%init_returns.
  destruct (use_redis self); [|done]. destruct (proj1 Huse eq_refl) as (_ & _ & Hup).
  congruence.
Qed.

(** The fallback, when the constructor returns: after a failed ping the
    object reports the file backend, and [set] then [get] goes through the
    cache file and leaves the networked store alone. *)
Lemma fallback_to_file env config w e self :
  Redis.ping (redis_server w) = Raise e →
  __init__ env config w = Ret self →
  use_redis self = false ∧
  backend_name self = "file" ∧
  ∀ u v w1, (∀ e1, cache_file w1 ≠ Unloadable e1) →
    (Cache.set self u v w1).1 = Ret tt ∧
    Cache.get self u (Cache.set self u v w1).2 = Ret (Some v) ∧
    file_entry (Cache.set self u v w1).2 (key_prefix self +:+ ":" +:+ u) = Some v ∧
    redis_server (Cache.set self u v w1).2 = redis_server w1.
Proof.
  intros Hping Hinit. assert (Redis.reachable (redis_server w) = false) as Hdown.
  { unfold Redis.ping in Hping. by destruct (Redis.reachable _). }
  pose proof (init_unreachable env config w self Hdown Hinit) as Hfile.
  split; [done|]. split; [unfold backend_name; by rewrite Hfile|].
  intros u v w1 Hload. by apply file_round_trip.
Qed.

Lemma fallback_to_file_example :
  Redis.ping (redis_server Example.world_offline) = Raise RedisError ∧
  __init__ Example.env Example.config Example.world_offline = Ret Example.file_cache ∧
  use_redis Example.file_cache = false ∧
  backend_name Example.file_cache = "file".
Proof.
  assert (Redis.ping (redis_server Example.world_offline) = Raise RedisError) as Hping
    by reflexivity.
  assert (__init__ Example.env Example.config Example.world_offline
          = Ret Example.file_cache) as Hinit by (vm_compute; reflexivity).
  split; [exact Hping|]. split; [exact Hinit|].
  destruct (fallback_to_file Example.env Example.config Example.world_offline
              RedisError Example.file_cache Hping Hinit) as (Huse & Hname & _).
  split; [exact Huse | exact Hname].
Defined.

(** C8. The constructor formats the timeout for a log line before it
    connects, outside any [try]: with an address whose ping fails and a
    timeout of a one followed by 400 zeros, the division by [ONE_DAY] in
    that line is an [OverflowError], and no cache object, file-backed or
    other, is made. *)
Theorem init_raises_on_huge_timeout :
  CACHE_REDIS_URL Example2.config_huge_timeout = Some "redis://localhost:6379/0" ∧
  Redis.ping (redis_server Example.world_offline) = Raise RedisError ∧
  timeout_str Example.env (10 ^ 400) = Raise (OtherError "OverflowError") ∧
  __init__ Example.env Example2.config_huge_timeout Example.world_offline
    = Raise (OtherError "OverflowError").
Proof.
  split; [reflexivity|]. split; [reflexivity|]. split; vm_compute; reflexivity.
Qed.

(** C10. On the file backend [set(u, v)] leaves the entry of every other
    page URL as it was: of the persisted map only the entry under the key
    [prefix:u] changes. *)
Theorem file_set_preserves_other_entries self u u' v w :
  use_redis self = false →
  u ≠ u' →
  file_entry (Cache.set self u v w).2 (key_prefix self +:+ ":" +:+ u')
    = file_entry w (key_prefix self +:+ ":" +:+ u') ∧
  Cache.get self u' (Cache.set self u v w).2 = Cache.get self u' w ∧
  (∀ key, key ≠ key_prefix self +:+ ":" +:+ u →
     file_entry (Cache.set self u v w).2 key = file_entry w key) ∧
  ((Cache.set self u v w).1 = Ret tt →
     file_entry (Cache.set self u v w).2 (key_prefix self +:+ ":" +:+ u) = Some v).
Proof.
  intros Hfile Hne.
  assert (key_prefix self +:+ ":" +:+ u' ≠ key_prefix self +:+ ":" +:+ u) as Hkey.
  { intros H. by apply key_inj in H. }
  assert (∀ key, key ≠ key_prefix self +:+ ":" +:+ u →
            file_entry (Cache.set self u v w).2 key = file_entry w key) as Hframe.
  { intros key Hk. unfold Cache.set, file_entry. rewrite Hfile.
    destruct (cache_file w) as [|cache|e] eqn:Hw; simpl;
      [|by rewrite lookup_insert_ne|by rewrite Hw].
    rewrite lookup_insert_ne by done. apply lookup_empty. }
  split; [by apply Hframe|]. split; [|split; [done|]].
  - unfold Cache.get. rewrite Hfile.
    pose proof (Hframe _ Hkey) as H. unfold file_entry in H.
    unfold Cache.set in *. rewrite Hfile in *.
    destruct (cache_file w) as [|cache|e] eqn:Hw; simpl in *; by rewrite ?Hw, ?H.
  - unfold Cache.set, file_entry. rewrite Hfile.
    destruct (cache_file w) as [|cache|e] eqn:Hw; simpl;
      [by rewrite lookup_insert_eq..|done].
Qed.

Lemma file_set_preserves_other_entries_example :
  Cache.get Example.file_cache Example.book_url
    (Cache.set Example.file_cache Example.book_url_list Example.cover_alt
       (Cache.set Example.file_cache Example.book_url Example.cover_abc
          Example.world_offline).2).2
  = Cache.get Example.file_cache Example.book_url
      (Cache.set Example.file_cache Example.book_url Example.cover_abc
         Example.world_offline).2.
Proof.
  refine (proj1 (proj2 (file_set_preserves_other_entries Example.file_cache
            Example.book_url_list Example.book_url Example.cover_alt _ _ _))).
  - reflexivity.
  - discriminate.
Defined.

(** ** A cache file that cannot be loaded *)

(** On a cache file that [pickle.load] cannot read, [get] is not a miss and
    [set] does not record its entry: both raise. *)
Lemma unloadable_file_is_not_a_miss :
  use_redis Example.file_cache = false ∧
  cache_file Example.world_corrupt = Unloadable UnpicklingError ∧
  Cache.get Example.file_cache Example.book_url Example.world_corrupt
    = Raise UnpicklingError ∧
  Cache.set Example.file_cache Example.book_url Example.cover_abc Example.world_corrupt
    = (Raise UnpicklingError, Example.world_corrupt) ∧
  ¬ (Cache.get Example.file_cache Example.book_url Example.world_corrupt = Ret None ∧
     (Cache.set Example.file_cache Example.book_url Example.cover_abc
        Example.world_corrupt).1 = Ret tt).
Proof.
  split; [reflexivity|]. split; [reflexivity|]. split; [reflexivity|].
  split; [reflexivity|]. intros [H _]. discriminate H.
Qed.

(** C9, as the program has it. On the file backend, when the cache file is
    there but cannot be opened or unpickled, [get] and [set] raise the
    error of the load and leave the file as it is; [get_book_image] catches
    it and answers with a server error, the state unchanged. *)
Theorem unloadable_file_raises env config session self u v w e :
  use_redis self = false →
  cache_file w = Unloadable e →
  Cache.get self u w = Raise e ∧
  Cache.set self u v w = (Raise e, w) ∧
  (u ≠ EmptyString → str_contains "amazon" (lower u) = true →
   get_book_image env config session (Some u)
     {| _book_image_cache := Some self; world := w |}
   = (ServerError e, {| _book_image_cache := Some self; world := w |})).
Proof.
  intros Hfile Hw. unfold Cache.get, Cache.set. rewrite Hfile, Hw. simpl.
  split; [done|]. split; [done|]. intros Hu Hamazon.
  unfold get_book_image, Cache.get. simpl.
  rewrite bool_decide_eq_false_2 by done. simpl. rewrite Hamazon, Hfile, Hw. done.
Qed.

Lemma unloadable_file_raises_example :
  Cache.get Example.file_cache Example.book_url Example.world_corrupt
    = Raise UnpicklingError ∧
  get_book_image Example.env Example.config Example.session (Some Example.book_url)
    {| _book_image_cache := Some Example.file_cache; world := Example.world_corrupt |}
  = (ServerError UnpicklingError,
     {| _book_image_cache := Some Example.file_cache; world := Example.world_corrupt |}).
Proof.
  pose proof (unloadable_file_raises Example.env Example.config Example.session
                Example.file_cache Example.book_url Example.cover_abc
                Example.world_corrupt UnpicklingError eq_refl eq_refl)
    as (Hget & _ & Hroute).
  split; [exact Hget|]. apply Hroute; [discriminate | vm_compute; reflexivity].
Defined.

(** ** What the cache holds *)

Section Invariant.
Context (env : PyEnv) (config : Config).

Lemma set_preserves_valid self u v w :
  is_valid_image_url env (PyStr v) = Ret true →
  stored_values_valid env w →
  stored_values_valid env (Cache.set self u v w).2.
Proof.
  intros Hv [Hredis Hfile]. unfold Cache.set. destruct (use_redis self).
  - unfold Redis.setex. repeat case_match; simplify_eq/=; split; try done.
    simpl. intros key value time [[_ [= <- <-]]|[_ H]]%lookup_insert_Some; eauto.
  - destruct (cache_file w) as [|cache|e] eqn:Hw; simpl; split; try done; simpl;
      [| |intros c key value Hc; congruence].
    + intros c key value [= <-] [[_ <-]|[_ H]]%lookup_insert_Some; [done|].
      by rewrite lookup_empty in H.
    + intros c key value [= <-] [[_ <-]|[_ H]]%lookup_insert_Some; eauto.
Qed.

Lemma environment_preserves_valid w w' :
  environment_step w w' → stored_values_valid env w → stored_values_valid env w'.
Proof.
  intros (_ & Hdb & Hfile) [Hredis Hcache]. split.
  - intros key value time H. eapply Hredis. by eapply lookup_weaken.
  - intros cache key value Hw. destruct Hfile as [Hsame | Hgone]; [|congruence].
    rewrite Hsame in Hw. eauto.
Qed.

(** A request leaves the stores as they are, or writes with [set] a
    non-empty URL that [extract_image_url] has just returned. *)
Lemma get_book_image_writes session book_url st :
  world (get_book_image env config session book_url st).2 = world st ∨
  ∃ cache url image_url,
    extract_image_url env session url = Ret (Some image_url) ∧
    image_url ≠ EmptyString ∧
    world (get_book_image env config session book_url st).2
      = (Cache.set cache url image_url (world st)).2.
Proof.
  unfold get_book_image.
  destruct (if_truthy book_url) as [url|]; [|by left].
  destruct (negb _); [by left|].
  destruct (match _book_image_cache st with
            | Some cache => Ret cache
            | None => __init__ env config (world st)
            end) as [cache|e]; [|by left].
  simpl. destruct (Cache.get cache url (world st)) as [cached|e]; [|by left].
  destruct (if_truthy cached); [by left|].
  destruct (extract_image_url env session url) as [[image_url|]|e] eqn:Hex;
    simpl; [|by left..].
  destruct (bool_decide (image_url = EmptyString)) eqn:Hne; simpl; [by left|].
  apply bool_decide_eq_false in Hne. right. exists cache, url, image_url.
  split; [done|]. split; [done|]. by destruct (Cache.set _ _ _ _) as [[] ?].
Qed.

Lemma get_book_image_preserves_valid session book_url st :
  stored_values_valid env (world st) →
  stored_values_valid env (world (get_book_image env config session book_url st).2).
Proof.
  intros Hvalid.
  destruct (get_book_image_writes session book_url st)
    as [-> | (cache & url & image_url & Hex & _ & ->)]; [done|].
  apply set_preserves_valid; [|done]. by eapply extract_image_url_valid.
Qed.

End Invariant.

(** C7. In every state the application can reach, every URL held by the
    cache, in the networked store or in the cache file, passes
    [is_valid_image_url]: the handler writes with [set] only a non-empty
    result of [extract_image_url], and each of the seven methods returns a
    URL only after the validator has accepted it. *)
Theorem cached_urls_are_valid env config st :
  reachable env config st →
  stored_values_valid env (world st) ∧
  (∀ session book_url,
     world (get_book_image env config session book_url st).2 = world st ∨
     ∃ cache url image_url,
       extract_image_url env session url = Ret (Some image_url) ∧
       image_url ≠ EmptyString ∧
       is_valid_image_url env (PyStr image_url) = Ret true ∧
       world (get_book_image env config session book_url st).2
         = (Cache.set cache url image_url (world st)).2) ∧
  (∀ method soup u, method ∈ methods env → method soup = Ret (Some u) →
     is_valid_image_url env (PyStr u) = Ret true).
Proof.
  intros Hreach. split; [|split].
  - induction Hreach as [st (_ & Hdb & Hfile) | st session book_url _ IH | st w' _ IH Hstep].
    + split.
      * intros key value time. by rewrite Hdb, lookup_empty.
      * intros cache key value. by rewrite Hfile.
    + by apply get_book_image_preserves_valid.
    + simpl. by eapply environment_preserves_valid.
  - intros session book_url.
    destruct (get_book_image_writes env config session book_url st)
      as [H | (cache & url & image_url & Hex & Hne & H)]; [by left|].
    right. exists cache, url, image_url.
    split; [done|]. split; [done|]. split; [by eapply extract_image_url_valid|done].
  - intros method soup u. apply methods_return_valid.
Qed.

Lemma cached_urls_are_valid_example :
  reachable Example.env Example.config
    (get_book_image Example.env Example.config Example.session
       (Some Example.book_url) Example.start).2 ∧
  file_entry
    (world (get_book_image Example.env Example.config Example.session
              (Some Example.book_url) Example.start).2)
    (DEFAULT_KEY_PREFIX +:+ ":" +:+ Example.book_url) = Some Example.cover_abc ∧
  stored_values_valid Example.env
    (world (get_book_image Example.env Example.config Example.session
              (Some Example.book_url) Example.start).2).
Proof.
  assert (reachable Example.env Example.config
            (get_book_image Example.env Example.config Example.session
               (Some Example.book_url) Example.start).2) as Hreach.
  { apply reach_request, reach_initial. split; [reflexivity|]. split; reflexivity. }
  split; [exact Hreach|]. split; [vm_compute; reflexivity|].
  exact (proj1 (cached_urls_are_valid Example.env Example.config _ Hreach)).
Defined.

(* ===================================================================== *)
(** * Further properties of the validator                                 *)
(* ===================================================================== *)

Lemma occurs_trans a b c : occurs a b → occurs b c → occurs a c.
Proof.
  intros (p1 & q1 & ->) (p2 & q2 & ->). exists (p2 +:+ p1), (q1 +:+ q2).
  by rewrite !app_assoc_str.
Qed.

Lemma is_valid_image_url_total env url : ∃ b, is_valid_image_url env (PyStr url) = Ret b.
Proof.
  rewrite is_valid_image_url_str. case_match; [eauto|].
  destruct (too_small_total env url) as [[] ->]; simpl; eauto.
Qed.

(** The host test of the validator is the test for [amazon], letters in
    lower case: the longer host fragment contains it, so a URL that is
    accepted contains [amazon], and one whose host is written [AMAZON] is
    refused. *)
Theorem valid_contains_amazon env url :
  is_valid_image_url env (PyStr url) = Ret true →
  occurs "amazon" url ∧
  (str_contains "amazon" url || str_contains "images-na.ssl-images-amazon.com" url
   = str_contains "amazon" url).
Proof.
  intros Hvalid.
  assert (str_contains "amazon" url || str_contains "images-na.ssl-images-amazon.com" url
          = str_contains "amazon" url) as Hhost.
  { destruct (str_contains "amazon" url) eqn:Ha; [done|]. simpl.
    destruct (str_contains "images-na.ssl-images-amazon.com" url) eqn:Hb; [|done].
    apply str_contains_occurs in Hb.
    assert (occurs "amazon" "images-na.ssl-images-amazon.com") as Hsub
      by (exists "images-na.ssl-images-", ".com"; reflexivity).
    apply (occurs_trans _ _ _ Hsub), str_contains_occurs in Hb. congruence. }
  split; [|done]. apply str_contains_occurs.
  rewrite is_valid_image_url_str in Hvalid. case_match; [done|].
  apply bind_Ret in Hvalid as ([] & _ & Hvalid); [done|].
  injection Hvalid as Hvalid. rewrite Hhost in Hvalid.
  by apply andb_true_iff in Hvalid as [? _].
Qed.

Lemma valid_contains_amazon_example :
  is_valid_image_url Example.env (PyStr Example.cover_alt) = Ret true ∧
  occurs "amazon" Example.cover_alt.
Proof.
  assert (is_valid_image_url Example.env (PyStr Example.cover_alt) = Ret true) as H
    by (vm_compute; reflexivity).
  split; [exact H|]. exact (proj1 (valid_contains_amazon Example.env _ H)).
Defined.

(** On an arbitrary object the validator answers false for a falsy one
    ([None], [0], the empty string, list or dict), raises [AttributeError]
    for a truthy one that is not a string, and raises nothing else. *)
Theorem validator_on_objects env v :
  (truthy v = false → is_valid_image_url env v = Ret false) ∧
  (truthy v = true → str_of v = None → is_valid_image_url env v = Raise AttributeError) ∧
  (∀ e, is_valid_image_url env v = Raise e →
     e = AttributeError ∧ truthy v = true ∧ str_of v = None).
Proof.
  split; [|split].
  - intros Ht. unfold is_valid_image_url. by rewrite Ht.
  - intros Ht Hs. unfold is_valid_image_url. rewrite Ht. simpl. by destruct v.
  - intros e He. destruct (truthy v) eqn:Ht.
    + destruct v; try (unfold is_valid_image_url in He; rewrite Ht in He;
                       simpl in He; by simplify_eq).
      destruct (is_valid_image_url_total env s) as [b Hb]. congruence.
    + unfold is_valid_image_url in He. rewrite Ht in He. done.
Qed.

Lemma validator_on_objects_example :
  is_valid_image_url Example.env (PyInt 7) = Raise AttributeError ∧
  is_valid_image_url Example.env (PyList []) = Ret false.
Proof.
  split.
  - apply (proj1 (proj2 (validator_on_objects Example.env (PyInt 7)))); reflexivity.
  - apply (proj1 (validator_on_objects Example.env (PyList []))); reflexivity.
Defined.

(** The dimension check rejects exactly when both patterns match, both
    numbers parse and the width or the height is below 100. *)
Theorem too_small_iff env url :
  too_small env url = Ret true ↔
  ∃ sx sy width height,
    re_search (match_dimension "SX") url = Some sx ∧
    re_search (match_dimension "SY") url = Some sy ∧
    py_int (max_str_digits env) sx = Ret width ∧
    py_int (max_str_digits env) sy = Ret height ∧
    (width < 100 ∨ height < 100)%Z.
Proof.
  split.
  - unfold too_small. intros H. case_match; [|done].
    destruct (re_search (match_dimension "SX") url) as [sx|]; [|done].
    destruct (re_search (match_dimension "SY") url) as [sy|]; [|done].
    destruct (py_int (max_str_digits env) sx) as [width|e] eqn:Hx; simpl in H.
    + destruct (py_int (max_str_digits env) sy) as [height|e] eqn:Hy; simpl in H.
      * injection H as H. exists sx, sy, width, height.
        apply orb_true_iff in H. rewrite !Z.ltb_lt in H. done.
      * apply py_int_raises in Hy as ->. done.
    + apply py_int_raises in Hx as ->. done.
  - intros (sx & sy & width & height & Hsx & Hsy & Hw & Hh & Hlt).
    unfold too_small.
    rewrite (re_search_dimension_contains _ _ _ Hsx),
      (re_search_dimension_contains _ _ _ Hsy), Hsx, Hsy. simpl.
    rewrite Hw, Hh. simpl. f_equal. apply orb_true_iff. by rewrite !Z.ltb_lt.
Qed.

(** ** The dimension patterns *)

Lemma span_digits_spec s d r :
  span_digits s = (d, r) → s = d +:+ r ∧ digits_only d = true.
Proof.
  revert d r. induction s as [|c s IH]; intros d r H; simpl in H.
  - by simplify_eq.
  - destruct (is_digit c) eqn:Hc; [|by simplify_eq].
    destruct (span_digits s) as [d' r'] eqn:Hs. simplify_eq.
    destruct (IH _ _ eq_refl) as [-> Hd]. rewrite app_cons. simpl. by rewrite Hc, Hd.
Qed.

(** A run of digits is taken whole when what follows is not a digit. *)
Lemma span_digits_app d c r :
  digits_only d = true → is_digit c = false →
  span_digits (d +:+ String c r) = (d, String c r).
Proof.
  intros Hd Hc. induction d as [|a d IH].
  - rewrite app_empty_l. simpl. by rewrite Hc.
  - simpl in Hd. apply andb_true_iff in Hd as [Ha Hd].
    rewrite app_cons. simpl. by rewrite Ha, (IH Hd).
Qed.

Lemma strip_prefix_app p r : strip_prefix p (p +:+ r) = Some r.
Proof.
  induction p as [|a p IH]; [done|]. rewrite app_cons. simpl.
  by rewrite bool_decide_eq_true_2.
Qed.

Lemma match_dimension_Some tok s g :
  match_dimension tok s = Some g →
  g ≠ EmptyString ∧ digits_only g = true ∧
  ∃ post, s = String "_"%char tok +:+ g +:+ "_" +:+ post.
Proof.
  unfold match_dimension. intros H.
  destruct (strip_prefix _ s) as [rest|] eqn:Hp; [|done].
  apply strip_prefix_Some in Hp as ->.
  destruct (span_digits rest) as [digits after] eqn:Hs.
  apply span_digits_spec in Hs as [-> Hd].
  destruct (bool_decide (digits = EmptyString)) eqn:Hne; cbn [negb andb] in H; [done|].
  destruct (startswith after "_") eqn:Hafter; [|done]. simplify_eq.
  apply bool_decide_eq_false in Hne.
  apply startswith_true in Hafter as [post ->]. eauto.
Qed.

Lemma match_dimension_here tok g post :
  g ≠ EmptyString → digits_only g = true →
  match_dimension tok (String "_"%char tok +:+ g +:+ "_" +:+ post) = Some g.
Proof.
  intros Hne Hd. unfold match_dimension. rewrite strip_prefix_app.
  change ("_" +:+ post) with (String "_"%char post).
  rewrite span_digits_app by done. rewrite bool_decide_eq_false_2 by done. done.
Qed.

Lemma re_search_Some here s g :
  re_search here s = Some g → ∃ pre rest, s = pre +:+ rest ∧ here rest = Some g.
Proof.
  induction s as [|c s IH]; simpl.
  - destruct (here EmptyString) eqn:Hh; [|done]. intros [= ->].
    exists EmptyString, EmptyString. done.
  - destruct (here (String c s)) eqn:Hh.
    + intros [= ->]. exists EmptyString, (String c s). done.
    + intros (pre & rest & -> & Hr)%IH. exists (String c pre), rest. done.
Qed.

Lemma re_search_finds here pre rest g :
  here rest = Some g → ∃ g', re_search here (pre +:+ rest) = Some g'.
Proof.
  intros Hr. induction pre as [|c pre IH].
  - rewrite app_empty_l. destruct rest; simpl; rewrite Hr; eauto.
  - rewrite app_cons. simpl.
    destruct (here (String c (pre +:+ rest))); [eauto|exact IH].
Qed.

(** The pattern [_SX(\d+)_] (or [_SY(\d+)_]) is found exactly in the URLs
    that contain the two letters between underscores around a non-empty run
    of digits, and the group it captures is such a run. *)
Theorem dimension_pattern_found tok url :
  (∀ g, re_search (match_dimension tok) url = Some g →
     g ≠ EmptyString ∧ digits_only g = true ∧
     occurs (String "_"%char tok +:+ g +:+ "_") url) ∧
  ((∃ g, re_search (match_dimension tok) url = Some g) ↔
   (∃ g, g ≠ EmptyString ∧ digits_only g = true ∧
         occurs (String "_"%char tok +:+ g +:+ "_") url)).
Proof.
  assert (∀ g, re_search (match_dimension tok) url = Some g →
            g ≠ EmptyString ∧ digits_only g = true ∧
            occurs (String "_"%char tok +:+ g +:+ "_") url) as Hsound.
  { intros g (pre & rest & -> & Hm)%re_search_Some.
    apply match_dimension_Some in Hm as (Hne & Hd & post & ->).
    split; [done|]. split; [done|]. exists pre, post.
    by rewrite !app_cons, !app_assoc_str. }
  split; [done|]. split.
  - intros [g Hg]. exists g. by apply Hsound.
  - intros (g & Hne & Hd & pre & post & ->).
    apply (re_search_finds _ pre _ g).
    rewrite !app_cons, !app_assoc_str, <- app_cons. by apply match_dimension_here.
Qed.

Lemma dimension_pattern_found_example :
  re_search (match_dimension "SX") Example.cover_abc = Some "300" ∧
  occurs "_SX300_" Example.cover_abc.
Proof.
  assert (re_search (match_dimension "SX") Example.cover_abc = Some "300") as H
    by (vm_compute; reflexivity).
  split; [exact H|].
  exact (proj2 (proj2 (proj1 (dimension_pattern_found "SX" Example.cover_abc) _ H))).
Defined.

Lemma digit_not_space c : is_digit c = true → Py.is_space c = false.
Proof.
  destruct c as [[] [] [] [] [] [] [] []]; vm_compute; congruence.
Qed.

Lemma digit_value_nonneg c : is_digit c = true → (0 ≤ digit_value c)%Z.
Proof.
  unfold is_digit, digit_value. intros [H _]%andb_true_iff.
  apply Nat.leb_le in H. lia.
Qed.

Lemma strip_digits g : digits_only g = true → strip g = g.
Proof.
  intros Hd. unfold strip.
  assert (lstrip g = g) as ->.
  { destruct g as [|c g]; [done|]. simpl in *.
    apply andb_true_iff in Hd as [Hc _]. by rewrite (digit_not_space c Hc). }
  induction g as [|c g IH]; [done|]. simpl in *.
  apply andb_true_iff in Hd as [Hc Hd]. rewrite (IH Hd).
  destruct g; [by rewrite (digit_not_space c Hc)|done].
Qed.

Lemma int_digits_digits s acc n :
  digits_only s = true → (0 ≤ acc)%Z →
  ∃ v, int_digits s acc n true = Some (v, (n + String.length s)%nat) ∧ (0 ≤ v)%Z.
Proof.
  revert acc n. induction s as [|c s IH]; intros acc n Hd Hacc; simpl.
  - exists acc. by rewrite Nat.add_0_r.
  - simpl in Hd. apply andb_true_iff in Hd as [Hc Hd]. rewrite Hc.
    pose proof (digit_value_nonneg c Hc).
    destruct (IH (10 * acc + digit_value c)%Z (S n) Hd ltac:(lia)) as (v & -> & Hv).
    exists v. split; [|done]. do 2 f_equal. lia.
Qed.

(** [int] of a string of digits, not longer than the threshold of the digit
    limit, is a number that is not negative. *)
Lemma py_int_digits lim g :
  digits_only g = true → g ≠ EmptyString →
  (String.length g ≤ str_digits_check_threshold)%nat →
  ∃ v, py_int lim g = Ret v ∧ (0 ≤ v)%Z.
Proof.
  intros Hd Hne Hlen. unfold py_int. rewrite (strip_digits g Hd).
  destruct g as [|c g]; [done|]. pose proof Hd as Hd'. simpl in Hd'.
  apply andb_true_iff in Hd' as [Hc Hg].
  match goal with
  | |- context [let '(neg, body) := ?m in _] => assert (m = (false, String c g)) as ->
  end.
  { destruct c as [[] [] [] [] [] [] [] []]; vm_compute in Hc; try discriminate Hc;
      reflexivity. }
  cbn [int_digits]. rewrite Hc.
  pose proof (digit_value_nonneg c Hc).
  destruct (int_digits_digits g (10 * 0 + digit_value c)%Z 1 Hg ltac:(lia))
    as (v & -> & Hv).
  simpl in Hlen.
  assert ((str_digits_check_threshold <? 1 + String.length g)%nat = false) as ->
    by (apply Nat.ltb_ge; lia).
  simpl. eauto.
Qed.

(** A dimension token that the pattern captures parses: unless it is longer
    than 640 digits, [int] returns a number that is not negative, so that
    the handler of [ValueError] in the dimension check is only ever entered
    through the digit limit of the interpreter. *)
Theorem dimension_token_parses env tok url g :
  re_search (match_dimension tok) url = Some g →
  (String.length g ≤ str_digits_check_threshold)%nat →
  ∃ n, py_int (max_str_digits env) g = Ret n ∧ (0 ≤ n)%Z.
Proof.
  intros (pre & rest & -> & Hm)%re_search_Some Hlen.
  apply match_dimension_Some in Hm as (Hne & Hd & _).
  by apply py_int_digits.
Qed.

Lemma dimension_token_parses_example :
  re_search (match_dimension "SY") Example.cover_abc = Some "400" ∧
  ∃ n, py_int (max_str_digits Example.env) "400" = Ret n ∧ (0 ≤ n)%Z.
Proof.
  assert (re_search (match_dimension "SY") Example.cover_abc = Some "400") as H
    by (vm_compute; reflexivity).
  split; [exact H|].
  apply (dimension_token_parses Example.env "SY" Example.cover_abc "400" H).
  unfold str_digits_check_threshold. simpl. lia.
Defined.

Lemma too_small_iff_example :
  too_small Example.env Example.cover_tiny = Ret true.
Proof.
  apply (proj2 (too_small_iff Example.env Example.cover_tiny)).
  exists "80", "80", 80%Z, 80%Z.
  split; [vm_compute; reflexivity|]. split; [vm_compute; reflexivity|].
  split; [vm_compute; reflexivity|]. split; [vm_compute; reflexivity|]. left. lia.
Defined.

(* ===================================================================== *)
(** * Further properties of the strategies                                *)
(* ===================================================================== *)

Lemma getitem_has_attr tag key :
  has_attr tag key = true → ∃ v, attrs tag !! key = Some v ∧ Bs4.getitem tag key = Ret v.
Proof.
  unfold has_attr, Bs4.getitem. intros [v Hv]%bool_decide_eq_true. rewrite Hv. eauto.
Qed.

Lemma has_attr_false tag key : has_attr tag key = false → attrs tag !! key = None.
Proof.
  unfold has_attr. intros H%bool_decide_eq_false.
  destruct (attrs tag !! key) eqn:Hk; [|done]. destruct H. eauto.
Qed.

Lemma has_attr_Some tag key v : attrs tag !! key = Some v → has_attr tag key = true.
Proof. intros H. unfold has_attr. apply bool_decide_eq_true. eauto. Qed.

Lemma for_return_total {A B} (l : list A) (body : A → res (option B)) :
  (∀ x, x ∈ l → ∃ r, body x = Ret r) → ∃ r, for_return l body = Ret r.
Proof.
  induction l as [|x l IH]; intros Htotal; simpl; [eauto|].
  destruct (Htotal x) as [[v|] ->]; [left|simpl; eauto|simpl].
  apply IH. intros y Hy. apply Htotal. by right.
Qed.

(** What a loop with [return] in its body does, read off its result. *)
Lemma for_return_Some_split {A B} (l : list A) (body : A → res (option B)) v :
  for_return l body = Ret (Some v) ↔
  ∃ l1 x l2, l = l1 ++ x :: l2 ∧ (∀ y, y ∈ l1 → body y = Ret None) ∧
             body x = Ret (Some v).
Proof.
  split.
  - induction l as [|x l IH]; simpl; [done|].
    destruct (body x) as [[w|]|] eqn:Hx; simpl; [|intros H|done].
    + intros [= ->]. exists [], x, l. split; [done|]. split; [|done].
      intros y Hy. by apply elem_of_nil in Hy.
    + destruct (IH H) as (l1 & z & l2 & -> & Hnone & Hz).
      exists (x :: l1), z, l2. split; [done|]. split; [|done].
      intros y [->|Hy]%elem_of_cons; auto.
  - intros (l1 & x & l2 & -> & Hnone & Hx). by apply for_return_first.
Qed.

Lemma for_return_None_all {A B} (l : list A) (body : A → res (option B)) :
  for_return l body = Ret None ↔ ∀ y, y ∈ l → body y = Ret None.
Proof.
  split; [|apply for_return_none].
  induction l as [|x l IH]; simpl; [intros _ y Hy; by apply elem_of_nil in Hy|].
  destruct (body x) as [[w|]|] eqn:Hx; simpl; [done| |done].
  intros H y [->|Hy]%elem_of_cons; [done|]. by apply IH.
Qed.

Lemma for_return_Raise_split {A B} (l : list A) (body : A → res (option B)) e :
  for_return l body = Raise e ↔
  ∃ l1 x l2, l = l1 ++ x :: l2 ∧ (∀ y, y ∈ l1 → body y = Ret None) ∧ body x = Raise e.
Proof.
  split.
  - induction l as [|x l IH]; simpl; [done|].
    destruct (body x) as [[w|]|e'] eqn:Hx; simpl; [done|intros H|].
    + destruct (IH H) as (l1 & z & l2 & -> & Hnone & Hz).
      exists (x :: l1), z, l2. split; [done|]. split; [|done].
      intros y [->|Hy]%elem_of_cons; auto.
    + intros [= ->]. exists [], x, l. split; [done|]. split; [|done].
      intros y Hy. by apply elem_of_nil in Hy.
  - intros (l1 & x & l2 & -> & Hnone & Hx). by apply for_return_raises.
Qed.

Section MoreStrategies.
Context (env : PyEnv).

(** The validated [return] never raises on a string. *)
Lemma validated_src_total src :
  ∃ r, (ok ← is_valid_image_url env (PyStr src);
        if ok then Ret (Some src) else Ret None) = Ret r.
Proof. destruct (is_valid_image_url_total env src) as [[] ->]; simpl; eauto. Qed.

Lemma first_valid_strs_total (urls : list string) :
  ∃ r, first_valid env (PyStr <$> urls) = Ret r.
Proof.
  apply for_return_total. intros v (s & -> & _)%list_elem_of_fmap.
  destruct (is_valid_image_url_total env s) as [[] ->]; simpl; eauto.
Qed.

Lemma keys_dict d : keys (PyDict d) = Ret (PyStr <$> d.*1).
Proof. simpl. f_equal. by rewrite <- list_fmap_compose. Qed.

Lemma method_1_total soup : ∃ r, _extract_method_1 env soup = Ret r.
Proof.
  unfold _extract_method_1. repeat case_match; eauto.
  rewrite try_except_Exception. case_match; eauto.
Qed.

Lemma method_2_total soup : ∃ r, _extract_method_2 env soup = Ret r.
Proof.
  unfold _extract_method_2. apply for_return_total. intros script _.
  destruct (tag_string script) as [s|]; [|eauto].
  destruct (negb _); [|eauto]. unfold then_.
  match goal with
  | |- ∃ r, bind ?first _ = _ => assert (∃ r, first = Ret r) as [[u|] ->]
  end; [|simpl; eauto|simpl].
  { case_match; [|eauto]. rewrite try_except_Exception. case_match; eauto. }
  case_match; [|eauto]. rewrite try_except_Exception. case_match; eauto.
Qed.

Lemma method_3_total soup : ∃ r, _extract_method_3 env soup = Ret r.
Proof.
  unfold _extract_method_3. destruct (select_one soup _) as [img|]; [|eauto].
  destruct (has_attr img "src") eqn:Hsrc; [|eauto].
  apply getitem_has_attr in Hsrc as (src & _ & ->). simpl.
  destruct (is_valid_image_url_total env src) as [[] ->]; simpl; [eauto|].
  destruct (has_attr img "data-old-hires") eqn:Hold; [|eauto].
  apply getitem_has_attr in Hold as (old & _ & ->). simpl. apply validated_src_total.
Qed.

Lemma method_5_total soup : ∃ r, _extract_method_5 env soup = Ret r.
Proof.
  unfold _extract_method_5. destruct (select_one soup _) as [img|]; [|eauto].
  destruct (has_attr img "src") eqn:Hsrc; [|eauto].
  apply getitem_has_attr in Hsrc as (src & _ & ->). simpl. apply validated_src_total.
Qed.

Lemma method_6_total soup : ∃ r, _extract_method_6 env soup = Ret r.
Proof.
  unfold _extract_method_6. apply for_return_total. intros img _.
  destruct (has_attr img "src") eqn:Hsrc; [|eauto].
  apply getitem_has_attr in Hsrc as (src & _ & ->). simpl.
  case_match; [|eauto]. apply validated_src_total.
Qed.

Lemma method_7_total soup : ∃ r, _extract_method_7 env soup = Ret r.
Proof.
  unfold _extract_method_7. apply for_return_total. intros img _.
  destruct (has_attr img "src") eqn:Hsrc; [|eauto].
  destruct (has_attr img "width") eqn:Hw; [|eauto].
  destruct (has_attr img "height") eqn:Hh; [|eauto]. simpl.
  apply getitem_has_attr in Hsrc as (src & _ & ->).
  apply getitem_has_attr in Hw as (w & _ & ->).
  apply getitem_has_attr in Hh as (h & _ & ->). simpl.
  destruct (py_int _ w) as [width|e] eqn:Hwidth; simpl;
    [|apply py_int_raises in Hwidth as ->; simpl; eauto].
  destruct (py_int _ h) as [height|e] eqn:Hheight; simpl;
    [|apply py_int_raises in Hheight as ->; simpl; eauto].
  case_match; [|simpl; eauto].
  destruct (is_valid_image_url_total env src) as [[] ->]; simpl; eauto.
Qed.

End MoreStrategies.

(** Strategies 1, 2, 3, 5, 6 and 7 never raise, whatever the document and
    whatever the libraries answer: malformed JSON, a JSON value of the wrong
    type, an attribute that is not a number end in [None]. *)
Theorem strategies_swallow_errors env soup :
  (∃ r, _extract_method_1 env soup = Ret r) ∧
  (∃ r, _extract_method_2 env soup = Ret r) ∧
  (∃ r, _extract_method_3 env soup = Ret r) ∧
  (∃ r, _extract_method_5 env soup = Ret r) ∧
  (∃ r, _extract_method_6 env soup = Ret r) ∧
  (∃ r, _extract_method_7 env soup = Ret r).
Proof.
  eauto 10 using method_1_total, method_2_total, method_3_total, method_5_total,
    method_6_total, method_7_total.
Qed.

(** Strategy 4 raises exactly when the [src] of its element is not valid
    and the attribute [data-a-dynamic-image] is there but [json.loads]
    fails on it other than with [JSONDecodeError], or returns something
    that is not an object, on which [.keys()] is an [AttributeError]. *)
Theorem method_4_raises_iff env soup e :
  _extract_method_4 env soup = Raise e ↔
  ∃ main_image src raw,
    select_one soup "#landingImage, #imgBlkFront, #main-image, #img-canvas img"
      = Some main_image ∧
    attrs main_image !! "src" = Some src ∧
    is_valid_image_url env (PyStr src) = Ret false ∧
    attrs main_image !! "data-a-dynamic-image" = Some raw ∧
    ((json_loads env raw = Raise e ∧ isinstance e JSONDecodeError = false) ∨
     (∃ v, json_loads env raw = Ret v ∧ keys v = Raise e ∧ e = AttributeError)).
Proof.
  unfold _extract_method_4. split.
  - destruct (select_one soup _) as [img|]; [|done].
    destruct (has_attr img "src") eqn:Hsrc; [|done].
    apply getitem_has_attr in Hsrc as (src & Hsrc & ->). simpl.
    destruct (is_valid_image_url_total env src) as [[] Hv]; rewrite Hv; simpl; [done|].
    destruct (has_attr img "data-a-dynamic-image") eqn:Hdyn; [|done].
    apply getitem_has_attr in Hdyn as (raw & Hraw & ->). simpl.
    intros H. exists img, src, raw. repeat (split; [done|]).
    destruct (json_loads env raw) as [v|e'] eqn:Hjson; simpl in H.
    + right. exists v. split; [done|].
      destruct v as [| | | | | |d]; try (simpl in H; by simplify_eq).
      rewrite keys_dict in H. simpl in H.
      destruct (first_valid_strs_total env d.*1) as [r Hr]. rewrite Hr in H. done.
    + left. rewrite orb_false_r in H. by case_match; simplify_eq.
  - intros (img & src & raw & -> & Hsrc & Hv & Hraw & Hjson).
    rewrite (has_attr_Some _ _ _ Hsrc), (has_attr_Some _ _ _ Hraw).
    unfold Bs4.getitem. rewrite Hsrc, Hraw. simpl. rewrite Hv. simpl.
    destruct Hjson as [[-> Hinst] | (v & -> & Hkeys & ->)].
    + cbn [bind try_except existsb]. by rewrite Hinst.
    + cbn [bind]. by rewrite Hkeys.
Qed.

Lemma method_4_raises_iff_example :
  _extract_method_4 Example.env Example.soup_list = Raise AttributeError.
Proof.
  apply (proj2 (method_4_raises_iff Example.env Example.soup_list AttributeError)).
  exists Example.landing, "/sprite.gif", "[]".
  split; [reflexivity|]. split; [vm_compute; reflexivity|].
  split; [vm_compute; reflexivity|]. split; [vm_compute; reflexivity|].
  right. exists (PyList []). split; [reflexivity|]. split; reflexivity.
Defined.

(** ** The result of the chain, read backwards *)

Section ChainResult.
Context (env : PyEnv).

(** The step of the loop of [extract_image_url] on one method. *)
Lemma step_result (method : Soup → res (option string)) soup :
  method ∈ methods env →
  (image_url ← method soup;
   match image_url with
   | Some u => if truthy (PyStr u) then Ret (Some u) else Ret None
   | None => Ret None
   end) = method soup.
Proof.
  intros Hin. destruct (method soup) as [[u|]|e] eqn:Hm; simpl; [|done..].
  destruct (valid_is_str env _ (methods_return_valid env _ _ _ Hin Hm)) as (s & [= <-] & Hs).
  by rewrite bool_decide_eq_false_2.
Qed.

Lemma run_methods_split soup r :
  run_methods env soup = r →
  match r with
  | Ret None => ∀ y, y ∈ methods env → y soup = Ret None
  | _ => ∃ l1 x l2, methods env = l1 ++ x :: l2 ∧
                    (∀ y, y ∈ l1 → y soup = Ret None) ∧ x soup = r
  end.
Proof.
  unfold run_methods. intros H.
  assert (∀ l1 x l2, methods env = l1 ++ x :: l2 → ∀ y, y ∈ l1 → y ∈ methods env) as Hl1.
  { intros l1 x l2 -> y Hy. apply elem_of_app. by left. }
  assert (∀ l1 x l2, methods env = l1 ++ x :: l2 → x ∈ methods env) as Hx.
  { intros l1 x l2 ->. apply elem_of_app. right. left. }
  destruct r as [[u|]|e].
  - apply for_return_Some_split in H as (l1 & x & l2 & Heq & Hnone & Hsome).
    exists l1, x, l2. split; [done|]. split.
    + intros y Hy. rewrite <- (step_result y soup) by eauto. auto.
    + rewrite <- (step_result x soup) by eauto. done.
  - intros y Hy. rewrite <- (step_result y soup) by done.
    by apply (proj1 (for_return_None_all _ _) H).
  - apply for_return_Raise_split in H as (l1 & x & l2 & Heq & Hnone & Hraise).
    exists l1, x, l2. split; [done|]. split.
    + intros y Hy. rewrite <- (step_result y soup) by eauto. auto.
    + rewrite <- (step_result x soup) by eauto. done.
Qed.

(** Of the seven methods only the fourth can raise. *)
Lemma raising_method soup l1 x l2 e :
  methods env = l1 ++ x :: l2 → x soup = Raise e →
  l1 = [_extract_method_1 env; _extract_method_2 env; _extract_method_3 env] ∧
  x = _extract_method_4 env.
Proof.
  intros Heq Hx. unfold methods in Heq.
  destruct (method_1_total env soup) as [? H1], (method_2_total env soup) as [? H2],
    (method_3_total env soup) as [? H3], (method_5_total env soup) as [? H5],
    (method_6_total env soup) as [? H6], (method_7_total env soup) as [? H7].
  destruct l1 as [|a1 [|a2 [|a3 [|a4 [|a5 [|a6 [|a7 l1]]]]]]];
    simplify_eq/=; try congruence; try done.
  by destruct l1.
Qed.

End ChainResult.

(** Once the page is fetched and parsed, [extract_image_url] returns a URL
    exactly when that is what some method returns while the methods before
    it return nothing; it returns [None] exactly when all seven methods
    return nothing, or when the first three do and the fourth raises. *)
Theorem extract_image_url_result env session url html soup :
  _fetch_html session url = Ret html →
  _parse_html env html = Ret soup →
  (∀ u, extract_image_url env session url = Ret (Some u) ↔
     ∃ i method,
       methods env !! i = Some method ∧ method soup = Ret (Some u) ∧
       ∀ j earlier, (j < i)%nat → methods env !! j = Some earlier →
         earlier soup = Ret None) ∧
  (extract_image_url env session url = Ret None ↔
     (∀ method, method ∈ methods env → method soup = Ret None) ∨
     (∃ e, _extract_method_4 env soup = Raise e ∧
           _extract_method_1 env soup = Ret None ∧
           _extract_method_2 env soup = Ret None ∧
           _extract_method_3 env soup = Ret None)).
Proof.
  intros Hf Hp. rewrite (extract_with_soup env _ _ _ _ Hf Hp). split.
  - intros u. split.
    + intros H. destruct (run_methods env soup) as [r|e] eqn:Hrun; [|done].
      simplify_eq. apply run_methods_split in Hrun as (l1 & x & l2 & Heq & Hnone & Hx).
      exists (length l1), x. split; [by rewrite Heq, list_lookup_middle|].
      split; [done|]. intros j earlier Hj Hlook. apply Hnone.
      rewrite Heq, lookup_app_l in Hlook by done. by eapply list_elem_of_lookup_2.
    + intros (i & method & Hi & Hm & Hearlier).
      by rewrite (run_methods_first env soup i method u).
  - split.
    + intros H. destruct (run_methods env soup) as [[u|]|e] eqn:Hrun; [done| |].
      * left. by apply run_methods_split in Hrun.
      * right. apply run_methods_split in Hrun as (l1 & x & l2 & Heq & Hnone & Hx).
        destruct (raising_method env soup _ _ _ _ Heq Hx) as [-> ->].
        exists e. split; [done|].
        repeat split; apply Hnone; set_solver.
    + intros [Hnone | (e & H4 & H1 & H2 & H3)].
      * by rewrite run_methods_none.
      * rewrite (run_methods_raises env soup 3 (_extract_method_4 env) e); [done..| |done].
        intros j earlier Hj Hlook.
        destruct j as [|[|[|j]]]; [| | |lia]; by injection Hlook as <-.
Qed.

Lemma extract_image_url_result_example :
  extract_image_url Example.env Example.session Example.book_url
    = Ret (Some Example.cover_abc) ∧
  extract_image_url Example.env Example.session Example.book_url_list = Ret None.
Proof.
  split.
  - apply (proj1 (extract_image_url_result Example.env Example.session Example.book_url
                    Example.page Example.soup eq_refl eq_refl) Example.cover_abc).
    exists 0%nat, (_extract_method_1 Example.env).
    split; [reflexivity|]. split; [vm_compute; reflexivity|]. intros j earlier Hj. lia.
  - apply (proj2 (extract_image_url_result Example.env Example.session
                    Example.book_url_list Example.page_list Example.soup_list
                    eq_refl eq_refl)).
    right. exists AttributeError. repeat split; vm_compute; reflexivity.
Defined.

(** ** Order inside a strategy *)

Section Order.
Context (env : PyEnv).

Lemma keys_Ret v urls : keys v = Ret urls → ∃ d, v = PyDict d ∧ urls = PyStr <$> d.*1.
Proof.
  destruct v; try done. rewrite keys_dict. intros [= <-]. eauto.
Qed.

(** The step of [first_valid] on a string. *)
Lemma first_valid_step k :
  (ok ← is_valid_image_url env (PyStr k); if ok then Ret (str_of (PyStr k)) else Ret None)
  = match is_valid_image_url env (PyStr k) with
    | Ret true => Ret (Some k)
    | Ret false => Ret None
    | Raise e => Raise e
    end.
Proof. by destruct (is_valid_image_url env (PyStr k)) as [[]|]. Qed.

Lemma first_valid_first (ks : list string) u :
  first_valid env (PyStr <$> ks) = Ret (Some u) ↔
  ∃ before after, ks = before ++ u :: after ∧
    is_valid_image_url env (PyStr u) = Ret true ∧
    ∀ k, k ∈ before → is_valid_image_url env (PyStr k) = Ret false.
Proof.
  unfold first_valid. rewrite for_return_Some_split. split.
  - intros (l1 & x & l2 & Heq & Hnone & Hx).
    apply fmap_app_inv in Heq as (before & rest & -> & Hrest & ->).
    symmetry in Hrest. apply fmap_cons_inv in Hrest as (k & after & -> & -> & ->).
    rewrite first_valid_step in Hx.
    destruct (is_valid_image_url env (PyStr k)) as [[]|] eqn:Hk; [|done..].
    simplify_eq. exists before, after. split; [done|]. split; [done|].
    intros k' Hk'. specialize (Hnone (PyStr k') ltac:(by apply list_elem_of_fmap_2)).
    rewrite first_valid_step in Hnone.
    by destruct (is_valid_image_url env (PyStr k')) as [[]|].
  - intros (before & after & -> & Hu & Hbefore).
    exists (PyStr <$> before), (PyStr u), (PyStr <$> after).
    split; [by rewrite fmap_app|]. split.
    + intros y (k & -> & Hk)%list_elem_of_fmap. rewrite (Hbefore k Hk). done.
    + by rewrite Hu.
Qed.

End Order.

(** Strategy 1 returns the first key, in the order of the JSON object of
    [data-a-dynamic-image], that the validator accepts. *)
Theorem method_1_first_valid_key env soup u :
  _extract_method_1 env soup = Ret (Some u) ↔
  ∃ img raw d before after,
    select_one soup "#imgBlkFront, #ebooksImgBlkFront" = Some img ∧
    attrs img !! "data-a-dynamic-image" = Some raw ∧
    json_loads env raw = Ret (PyDict d) ∧
    d.*1 = before ++ u :: after ∧
    is_valid_image_url env (PyStr u) = Ret true ∧
    ∀ k, k ∈ before → is_valid_image_url env (PyStr k) = Ret false.
Proof.
  unfold _extract_method_1. split.
  - destruct (select_one soup _) as [img|]; [|done].
    destruct (has_attr img "data-a-dynamic-image") eqn:Hdyn; [|done].
    apply getitem_has_attr in Hdyn as (raw & Hraw & ->).
    intros H%try_except_returns. simpl in H.
    apply bind_Ret in H as (v & Hjson & H). apply bind_Ret in H as (urls & Hkeys & H).
    apply keys_Ret in Hkeys as (d & -> & ->).
    apply first_valid_first in H as (before & after & Hd & Hu & Hbefore).
    exists img, raw, d, before, after. done.
  - intros (img & raw & d & before & after & -> & Hraw & Hjson & Hd & Hu & Hbefore).
    rewrite (has_attr_Some _ _ _ Hraw). unfold Bs4.getitem. rewrite Hraw.
    cbn [bind]. rewrite Hjson. cbn [bind]. rewrite keys_dict. cbn [bind].
    rewrite (proj2 (first_valid_first env d.*1 u)); [done|]. eauto.
Qed.

Lemma method_1_first_valid_key_example :
  _extract_method_1 Example.env Example.soup = Ret (Some Example.cover_abc).
Proof.
  apply (proj2 (method_1_first_valid_key Example.env Example.soup Example.cover_abc)).
  exists Example.front, Example.dynamic_image,
    [(Example.cover_abc, PyList [PyInt 300; PyInt 400])], [], [].
  split; [reflexivity|]. split; [vm_compute; reflexivity|].
  split; [vm_compute; reflexivity|]. split; [reflexivity|].
  split; [vm_compute; reflexivity|]. intros k Hk. by apply elem_of_nil in Hk.
Defined.

Section DocumentOrder.
Context (env : PyEnv).

Lemma alt_keywords alt :
  str_contains "book" (lower alt) || str_contains "cover" (lower alt)
  || str_contains "product" (lower alt) = true
  ↔ occurs_nocase "book" alt ∨ occurs_nocase "cover" alt ∨ occurs_nocase "product" alt.
Proof. rewrite !orb_true_iff, !str_contains_lower. tauto. Qed.

(** The step of strategy 6 on one image. *)
Lemma method_6_step img :
  ∃ r,
    (if has_attr img "src" then
       src ← Bs4.getitem img "src";
       let alt := lower (Bs4.get img "alt" "") in
       if str_contains "book" alt || str_contains "cover" alt || str_contains "product" alt
       then ok ← is_valid_image_url env (PyStr src);
            if ok then Ret (Some src) else Ret None
       else Ret None
     else Ret None) = Ret r ∧
    match r with
    | Some u => alt_image env img u
    | None => ∀ u, ¬ alt_image env img u
    end.
Proof.
  unfold alt_image. destruct (has_attr img "src") eqn:Hsrc.
  - apply getitem_has_attr in Hsrc as (src & Hsrc & ->). cbn [bind].
    destruct (_ || _) eqn:Halt.
    + apply alt_keywords in Halt.
      destruct (is_valid_image_url_total env src) as [[] Hv]; rewrite Hv; cbn [bind].
      * by exists (Some src).
      * exists None. split; [done|]. intros u (Hu & _ & Hvu). congruence.
    + exists None. split; [done|]. intros u (_ & Hk & _).
      apply alt_keywords in Hk. congruence.
  - apply has_attr_false in Hsrc. exists None. split; [done|].
    intros u (Hu & _). congruence.
Qed.

(** The step of strategy 7 on one image. *)
Lemma method_7_step img :
  ∃ r,
    (if has_attr img "src" && has_attr img "width" && has_attr img "height" then
       try_except
         (w ← Bs4.getitem img "width";
          width ← py_int (max_str_digits env) w;
          h ← Bs4.getitem img "height";
          height ← py_int (max_str_digits env) h;
          src ← Bs4.getitem img "src";
          if (200 <=? width)%Z && (200 <=? height)%Z then
            ok ← is_valid_image_url env (PyStr src);
            if ok then Ret (Some src) else Ret None
          else Ret None)
         [ValueError; TypeError] (Ret None)
     else Ret None) = Ret r ∧
    match r with
    | Some u => large_image env img u
    | None => ∀ u, ¬ large_image env img u
    end.
Proof.
  unfold large_image.
  destruct (has_attr img "src") eqn:Hsrc; cycle 1.
  { apply has_attr_false in Hsrc. exists None. split; [done|].
    intros u (Hu & _). congruence. }
  destruct (has_attr img "width") eqn:Hw; cycle 1.
  { apply has_attr_false in Hw. exists None. split; [done|].
    intros u (_ & (w & h & width & height & Hw' & _) & _). congruence. }
  destruct (has_attr img "height") eqn:Hh; cycle 1.
  { apply has_attr_false in Hh. exists None. split; [done|].
    intros u (_ & (w & h & width & height & _ & Hh' & _) & _). congruence. }
  apply getitem_has_attr in Hsrc as (src & Hsrc & ->).
  apply getitem_has_attr in Hw as (w & Hw & ->).
  apply getitem_has_attr in Hh as (h & Hh & ->). cbn [andb bind].
  destruct (py_int (max_str_digits env) w) as [width|e] eqn:Hwidth; cbn [bind]; cycle 1.
  { apply py_int_raises in Hwidth as Hv. subst e. exists None. split; [done|].
    intros u (_ & (w' & h' & width' & height' & ? & ? & ? & _) & _). congruence. }
  destruct (py_int (max_str_digits env) h) as [height|e] eqn:Hheight; cbn [bind]; cycle 1.
  { apply py_int_raises in Hheight as Hv. subst e. exists None. split; [done|].
    intros u (_ & (w' & h' & width' & height' & ? & ? & ? & ? & _) & _). congruence. }
  destruct ((200 <=? width)%Z && (200 <=? height)%Z) eqn:Hlarge; cycle 1.
  { exists None. split; [done|].
    intros u (_ & (w' & h' & width' & height' & Hw' & Hh' & Hwidth' & Hheight' & ? & ?) & _).
    assert (w' = w) as -> by congruence. assert (h' = h) as -> by congruence.
    assert (width' = width) as -> by congruence.
    assert (height' = height) as -> by congruence.
    apply andb_false_iff in Hlarge. rewrite !Z.leb_gt in Hlarge. lia. }
  apply andb_true_iff in Hlarge as [Hlw Hlh]. rewrite Z.leb_le in Hlw, Hlh.
  destruct (is_valid_image_url_total env src) as [[] Hv]; rewrite Hv; cbn [bind try_except].
  - exists (Some src). split; [done|]. split; [done|]. split; [|done].
    exists w, h, width, height. done.
  - exists None. split; [done|]. intros u (Hu & _ & Hvu). congruence.
Qed.

(** A loop whose step is decided by a property of the item: it returns
    for the first item that has the property. *)
Lemma for_return_by_property {A} (l : list A) (body : A → res (option string))
    (P : A → string → Prop) :
  (∀ x u u', P x u → P x u' → u = u') →
  (∀ x, ∃ r, body x = Ret r ∧
     match r with Some u => P x u | None => ∀ u, ¬ P x u end) →
  (∀ u, for_return l body = Ret (Some u) ↔
     ∃ before x after, l = before ++ x :: after ∧ P x u ∧
       ∀ y, y ∈ before → ∀ u', ¬ P y u') ∧
  (for_return l body = Ret None ↔ ∀ y, y ∈ l → ∀ u', ¬ P y u').
Proof.
  intros Hfun Hstep.
  assert (∀ x u, body x = Ret (Some u) ↔ P x u) as Hsome.
  { intros x u. destruct (Hstep x) as ([u'|] & Hr & HP); rewrite Hr.
    - split; [by intros [= <-]|]. intros Hu. do 2 f_equal. by apply (Hfun x).
    - split; [done|]. intros Hu. by destruct (HP u). }
  assert (∀ x, body x = Ret None ↔ ∀ u, ¬ P x u) as Hnone.
  { intros x. destruct (Hstep x) as ([u'|] & Hr & HP); rewrite Hr.
    - split; [done|]. intros Hn. by destruct (Hn u').
    - done. }
  split.
  - intros u. rewrite for_return_Some_split.
    split; intros (before & x & after & -> & H1 & H2); exists before, x, after.
    + split; [done|]. split; [by apply Hsome|]. intros y Hy. apply Hnone. auto.
    + split; [done|]. split; [|by apply Hsome]. intros y Hy. apply Hnone. auto.
  - rewrite for_return_None_all. split; intros H y Hy; apply Hnone; auto.
Qed.

End DocumentOrder.

(** Strategy 6 returns the source of the first image, in document order,
    whose [alt] text mentions a book, a cover or a product (in any case)
    and whose source is valid; it returns nothing exactly when no image is
    such. *)
Theorem method_6_document_order env soup :
  (∀ u, _extract_method_6 env soup = Ret (Some u) ↔
     ∃ before img after,
       find_all soup "img" [] = before ++ img :: after ∧ alt_image env img u ∧
       ∀ y, y ∈ before → ∀ u', ¬ alt_image env y u') ∧
  (_extract_method_6 env soup = Ret None ↔
     ∀ y, y ∈ find_all soup "img" [] → ∀ u', ¬ alt_image env y u').
Proof.
  unfold _extract_method_6. apply for_return_by_property.
  - intros x u u' (Hu & _) (Hu' & _). congruence.
  - apply method_6_step.
Qed.

Lemma method_6_document_order_example :
  _extract_method_6 Example.env Example.soup = Ret (Some Example.cover_alt).
Proof.
  apply (proj2 (proj1 (method_6_document_order Example.env Example.soup)
                  Example.cover_alt)).
  exists [Example.front], Example.cover, [].
  split; [reflexivity|]. split.
  - split; [vm_compute; reflexivity|]. split; [|vm_compute; reflexivity].
    left. exists "", "Book", " cover". split; reflexivity.
  - intros y Hy u' (Hsrc & _). apply list_elem_of_singleton in Hy as ->.
    vm_compute in Hsrc. discriminate Hsrc.
Defined.

(** Strategy 7 returns the source of the first image, in document order,
    whose [width] and [height] attributes are numbers of at least 200 and
    whose source is valid; an image whose [width] or [height] is not a
    number is passed over. *)
Theorem method_7_document_order env soup :
  (∀ u, _extract_method_7 env soup = Ret (Some u) ↔
     ∃ before img after,
       find_all soup "img" [] = before ++ img :: after ∧ large_image env img u ∧
       ∀ y, y ∈ before → ∀ u', ¬ large_image env y u') ∧
  (_extract_method_7 env soup = Ret None ↔
     ∀ y, y ∈ find_all soup "img" [] → ∀ u', ¬ large_image env y u').
Proof.
  unfold _extract_method_7. apply for_return_by_property.
  - intros x u u' (Hu & _) (Hu' & _). congruence.
  - apply method_7_step.
Qed.

Lemma method_7_document_order_example :
  _extract_method_7 Example.env Example2.soup_large = Ret (Some Example.cover_alt).
Proof.
  apply (proj2 (proj1 (method_7_document_order Example.env Example2.soup_large)
                  Example.cover_alt)).
  exists [Example2.img_auto], Example2.img_big, [].
  split; [reflexivity|]. split.
  - split; [vm_compute; reflexivity|]. split; [|vm_compute; reflexivity].
    exists "300", " 450 ", 300%Z, 450%Z.
    split; [vm_compute; reflexivity|]. split; [vm_compute; reflexivity|].
    split; [vm_compute; reflexivity|]. split; [vm_compute; reflexivity|]. lia.
  - intros y Hy u' (_ & (w & h & width & height & Hw & _ & Hwidth & _) & _).
    apply list_elem_of_singleton in Hy as ->.
    vm_compute in Hw. injection Hw as <-. vm_compute in Hwidth. discriminate Hwidth.
Defined.

(* ===================================================================== *)
(** * Further properties of the cache                                     *)
(* ===================================================================== *)

Lemma timeout_str_raises env t e :
  timeout_str env t = Raise e → e = OtherError "OverflowError" ∨ e = ValueError.
Proof.
  unfold timeout_str, true_divide, int_str, bind.
  repeat case_match; intros; simplify_eq; auto.
Qed.

Lemma timeout_str_formats env t :
  (- 10 ^ 640 < t < 86400 * (2 ^ 1024 - 2 ^ 970))%Z → timeout_str env t = Ret tt.
Proof.
  intros [Hlo Hhi].
  assert (86400 * (2 ^ 1024 - 2 ^ 970) < 10 ^ 640)%Z as HB by (vm_compute; reflexivity).
  assert (86400 < 2 ^ 1024 - 2 ^ 970)%Z as HB' by (vm_compute; reflexivity).
  unfold timeout_str, true_divide, int_str, ONE_DAY, ONE_HOUR, ONE_MINUTE.
  change (Z.of_nat str_digits_check_threshold) with 640%Z.
  remember (2 ^ 1024 - 2 ^ 970)%Z as B eqn:HeqB in *.
  remember (10 ^ 640)%Z as T eqn:HeqT in *. clear HeqB HeqT.
  assert ((T <=? Z.abs t)%Z = false) as -> by (apply Z.leb_gt; lia).
  cbn [andb].
  destruct (Z.leb_spec 86400 t).
  { assert ((86400 * B <=? Z.abs t)%Z = false) as -> by (apply Z.leb_gt; lia). done. }
  destruct (Z.leb_spec 3600 t).
  { assert ((3600 * B <=? Z.abs t)%Z = false) as -> by (apply Z.leb_gt; lia). done. }
  destruct (Z.leb_spec 60 t); [|done].
  assert ((60 * B <=? Z.abs t)%Z = false) as -> by (apply Z.leb_gt; lia). done.
Qed.

(** The constructor raises only in the line that formats the timeout for
    the log, which it does for a timeout from [86400 * (2^1024 - 2^970)]
    on ([OverflowError]) or for one that the digit limit refuses to print
    ([ValueError]).  When it returns, it has chosen the networked backend
    exactly when the [redis] module is installed, the configured address
    starts with [redis://], [from_url] accepts it and the server answers the
    [ping]; the client is kept exactly when [from_url] accepted the address;
    the key prefix is the configured one, or [amazon_book_image]. *)
Theorem init_selects_backend env config w :
  (∀ e, __init__ env config w = Raise e ↔
        timeout_str env (configured_timeout env config) = Raise e) ∧
  (∀ e, __init__ env config w = Raise e → e = OtherError "OverflowError" ∨ e = ValueError) ∧
  ((- 10 ^ 640 < configured_timeout env config < 86400 * (2 ^ 1024 - 2 ^ 970))%Z →
   ∃ self, __init__ env config w = Ret self) ∧
  (∀ self, __init__ env config w = Ret self →
     (use_redis self = true ↔
        redis_installed w = true ∧
        (∃ address, CACHE_REDIS_URL config = Some address ∧
                    startswith address "redis://" = true ∧
                    redis_from_url env address = Ret tt) ∧
        Redis.reachable (redis_server w) = true) ∧
     (is_Some (redis_client self) ↔
        redis_installed w = true ∧
        ∃ address, CACHE_REDIS_URL config = Some address ∧
                   startswith address "redis://" = true ∧
                   redis_from_url env address = Ret tt) ∧
     key_prefix self = default "amazon_book_image" (CACHE_KEY_PREFIX config) ∧
     redis_url self = CACHE_REDIS_URL config).
Proof.
  split; [intros e; apply init_raises|]. split; [|split].
  - intros e He%init_raises. by eapply timeout_str_raises.
  - intros Hrange. destruct (__init__ env config w) as [self|e] eqn:Hinit; [eauto|].
    apply init_raises in Hinit. rewrite timeout_str_formats in Hinit by done. done.
  - intros self (_ & _ & Hprefix & Hurl & Huse & Hclient)%init_returns. done.
Qed.

Lemma init_selects_backend_example :
  (∃ self, __init__ Example.env Example2.config_bad_address Example.world_online = Ret self) ∧
  __init__ Example.env Example2.config_bad_address Example.world_online
  = Ret {| redis_url := Some "redis://localhost:port/0"; timeout := ONE_YEAR;
           use_redis := false; redis_client := None;
           key_prefix := "amazon_book_image" |}.
Proof.
  split; [|vm_compute; reflexivity].
  apply (proj1 (proj2 (proj2 (init_selects_backend
           Example.env Example2.config_bad_address Example.world_online)))).
  vm_compute. split; reflexivity.
Defined.

(** The time-to-live of the cache object is the configured integer; it is
    one year when the entry is absent, is [None], or is a string that
    [int] refuses. *)
Theorem init_timeout env config w self :
  __init__ env config w = Ret self →
  timeout self =
    match CACHE_TIMEOUT config with
    | None => 31536000%Z
    | Some (TimeoutInt z) => z
    | Some (TimeoutStr s) =>
        match py_int (max_str_digits env) s with
        | Ret z => z
        | Raise _ => 31536000%Z
        end
    | Some TimeoutNone => 31536000%Z
    end.
Proof. by intros (_ & -> & _)%init_returns. Qed.

Lemma init_timeout_example :
  ∃ self, __init__ Example.env Example2.config_bad_timeout Example.world_online = Ret self ∧
          timeout self = 31536000%Z ∧ use_redis self = true ∧ key_prefix self = "covers".
Proof.
  eexists. split; [vm_compute; reflexivity|].
  split; [|split; reflexivity].
  exact (init_timeout Example.env Example2.config_bad_timeout Example.world_online _ eq_refl).
Defined.

Lemma in_order_set self u v w : in_order self w → in_order self (Cache.set self u v w).2.
Proof.
  unfold in_order, Cache.set. destruct (use_redis self).
  - intros [Hup Ht]. unfold Redis.setex. rewrite Hup. simpl.
    destruct (Z.leb_spec (timeout self) 0); [lia|]. done.
  - intros Hload. destruct (cache_file w) eqn:Hw; simpl; try done. by destruct (Hload e).
Qed.

(** On the networked backend a [set] that the server accepts stores the
    value with the time-to-live of the cache object, leaves the cache file
    and the entries of the other page URLs as they are. *)
Theorem redis_set_writes_entry self u v w :
  use_redis self = true →
  Redis.reachable (redis_server w) = true →
  (0 < timeout self)%Z →
  (Cache.set self u v w).1 = Ret tt ∧
  Redis.db (redis_server (Cache.set self u v w).2)
    = <[key_prefix self +:+ ":" +:+ u := (v, timeout self)]> (Redis.db (redis_server w)) ∧
  cache_file (Cache.set self u v w).2 = cache_file w ∧
  (∀ u', u' ≠ u → Cache.get self u' (Cache.set self u v w).2 = Cache.get self u' w).
Proof.
  intros Hredis Hup Ht. unfold Cache.set, Cache.get, Redis.setex, Redis.get.
  rewrite Hredis, Hup. simpl.
  destruct (Z.leb_spec (timeout self) 0); [lia|]. simpl.
  repeat (split; [done|]). intros u' Hne. rewrite lookup_insert_ne; [done|].
  intros Hkey%key_inj. done.
Qed.

Lemma redis_set_writes_entry_example :
  Redis.db (redis_server
    (Cache.set Example.redis_cache Example.book_url Example.cover_abc
       Example.world_online).2)
  = <[DEFAULT_KEY_PREFIX +:+ ":" +:+ Example.book_url := (Example.cover_abc, ONE_YEAR)]> ∅.
Proof.
  refine (proj1 (proj2 (redis_set_writes_entry Example.redis_cache Example.book_url
                          Example.cover_abc Example.world_online _ _ _)));
    [reflexivity | reflexivity | reflexivity].
Defined.

(** A second [set] for the same page URL replaces the first: the stores
    are then as if only the second had been made. *)
Theorem last_write_wins self u v1 v2 w :
  in_order self w →
  Cache.set self u v2 (Cache.set self u v1 w).2 = (Ret tt, (Cache.set self u v2 w).2).
Proof.
  unfold in_order, Cache.set. destruct (use_redis self).
  - intros [Hup Ht]. unfold Redis.setex. rewrite Hup. simpl.
    destruct (Z.leb_spec (timeout self) 0); [lia|]. simpl.
    by rewrite insert_insert_eq.
  - intros Hload. destruct (cache_file w) eqn:Hw; simpl.
    + by rewrite insert_insert_eq.
    + by rewrite insert_insert_eq.
    + by destruct (Hload e).
Qed.

Lemma last_write_wins_example :
  Cache.set Example.file_cache Example.book_url Example.cover_alt
    (Cache.set Example.file_cache Example.book_url Example.cover_abc
       Example.world_offline).2
  = (Ret tt,
     (Cache.set Example.file_cache Example.book_url Example.cover_alt
        Example.world_offline).2).
Proof.
  apply (last_write_wins Example.file_cache Example.book_url Example.cover_abc
           Example.cover_alt Example.world_offline).
  intros e. discriminate.
Defined.

(** A page URL that has no entry is a miss, not an error: on a store in
    working order [get] returns [None]. *)
Theorem get_miss self u w :
  in_order self w →
  entry self w (key_prefix self +:+ ":" +:+ u) = None →
  Cache.get self u w = Ret None.
Proof.
  unfold in_order, entry, Cache.get, redis_entry, file_entry, Redis.get.
  destruct (use_redis self).
  - intros [-> _] H. simpl. by rewrite H.
  - intros Hload H. destruct (cache_file w) eqn:Hw; simpl; [done|by rewrite H|].
    by destruct (Hload e).
Qed.

Lemma get_miss_example :
  Cache.get Example.redis_cache Example.book_url Example.world_online = Ret None ∧
  Cache.get Example.file_cache Example.book_url Example.world_offline = Ret None.
Proof.
  split.
  - apply get_miss; [split; reflexivity | reflexivity].
  - apply get_miss; [intros e; discriminate | reflexivity].
Defined.

(* ===================================================================== *)
(** * Further properties of the endpoint                                  *)
(* ===================================================================== *)

Lemma set_raises_unchanged self u v w e :
  (Cache.set self u v w).1 = Raise e → (Cache.set self u v w).2 = w.
Proof.
  unfold Cache.set, Redis.setex. destruct w as [inst srv file]. simpl.
  destruct (use_redis self).
  - repeat case_match; simplify_eq/=; done.
  - repeat case_match; simplify_eq/=; done.
Qed.

Lemma set_returns_in_order self u v w :
  (Cache.set self u v w).1 = Ret tt → in_order self w.
Proof.
  unfold Cache.set, Redis.setex, in_order. destruct (use_redis self).
  - destruct (Redis.reachable (redis_server w)); simpl; [|done].
    destruct (Z.leb_spec (timeout self) 0); simpl; [done|]. done.
  - intros H e He. rewrite He in H. done.
Qed.

Lemma set_then_get self u v w :
  v ≠ EmptyString → (Cache.set self u v w).1 = Ret tt →
  Cache.get self u (Cache.set self u v w).2 = Ret (Some v).
Proof.
  intros Hv Hset. pose proof (set_returns_in_order _ _ _ _ Hset) as Horder.
  unfold in_order in Horder. destruct (use_redis self) eqn:Hbackend.
  - destruct Horder as [Hup Ht]. by apply redis_round_trip.
  - by apply file_round_trip.
Qed.

Lemma if_truthy_Some x u : if_truthy x = Some u → x = Some u ∧ u ≠ EmptyString.
Proof.
  destruct x as [y|]; simpl; [|done]. case_bool_decide; simpl; [done|]. by intros [= ->].
Qed.

Lemma if_truthy_nonempty u : u ≠ EmptyString → if_truthy (Some u) = Some u.
Proof. intros Hu. simpl. by rewrite bool_decide_eq_false_2. Qed.

(** The steps of [get_book_image] for a URL that passes the two checks,
    from a state that has its cache object. *)
Lemma get_book_image_with_cache env config session cache u w :
  u ≠ EmptyString → occurs_nocase "amazon" u →
  get_book_image env config session (Some u)
    {| _book_image_cache := Some cache; world := w |} =
  let st := {| _book_image_cache := Some cache; world := w |} in
  match Cache.get cache u w with
  | Raise e => (ServerError e, st)
  | Ret image_url =>
      match if_truthy image_url with
      | Some image_url => (Found image_url true (backend_name cache), st)
      | None =>
          match extract_image_url env session u with
          | Raise e => (ServerError e, st)
          | Ret image_url =>
              match if_truthy image_url with
              | Some image_url =>
                  match Cache.set cache u image_url w with
                  | (Ret _, w') =>
                      (Found image_url false (backend_name cache),
                       {| _book_image_cache := Some cache; world := w' |})
                  | (Raise e, w') =>
                      (ServerError e, {| _book_image_cache := Some cache; world := w' |})
                  end
              | None => (NotFound "Could not find book cover image", st)
              end
          end
      end
  end.
Proof.
  intros Hu Hamazon. unfold get_book_image. rewrite (if_truthy_nonempty u Hu).
  apply str_contains_lower in Hamazon. rewrite Hamazon. done.
Qed.

(** A request without [url], with an empty one, or with one that does not
    mention [amazon] (in any case) is answered as a bad request; nothing is
    fetched, no cache object is made and the stores are not touched. *)
Theorem bad_request_leaves_state env config session book_url st :
  (if_truthy book_url = None →
   get_book_image env config session book_url st
   = (BadRequest "Missing book URL parameter", st)) ∧
  (∀ u, book_url = Some u → u ≠ EmptyString → ¬ occurs_nocase "amazon" u →
   get_book_image env config session book_url st
   = (BadRequest "Only Amazon book URLs are supported", st)).
Proof.
  unfold get_book_image. split.
  - by intros ->.
  - intros u -> Hu Hno. rewrite (if_truthy_nonempty u Hu).
    destruct (str_contains "amazon" (lower u)) eqn:Ha; [|done].
    by apply str_contains_lower in Ha.
Qed.

Lemma bad_request_leaves_state_example :
  get_book_image Example.env Example.config Example.session None Example.start
  = (BadRequest "Missing book URL parameter", Example.start) ∧
  get_book_image Example.env Example.config Example.session
    (Some "https://www.example.com/dp/1") Example.start
  = (BadRequest "Only Amazon book URLs are supported", Example.start).
Proof.
  split.
  - apply (proj1 (bad_request_leaves_state Example.env Example.config Example.session
                    None Example.start)). reflexivity.
  - apply (proj2 (bad_request_leaves_state Example.env Example.config Example.session
                    (Some "https://www.example.com/dp/1") Example.start)
             "https://www.example.com/dp/1"); [reflexivity | discriminate |].
    intros H%str_contains_lower. vm_compute in H. discriminate H.
Defined.

(** A page URL whose entry is in the cache is answered from the cache,
    marked as cached, whatever the network would answer, and the state is
    left as it is. *)
Theorem cache_hit_skips_extraction env config session cache u x w :
  u ≠ EmptyString → occurs_nocase "amazon" u →
  in_order cache w → x ≠ EmptyString →
  entry cache w (key_prefix cache +:+ ":" +:+ u) = Some x →
  get_book_image env config session (Some u)
    {| _book_image_cache := Some cache; world := w |}
  = (Found x true (backend_name cache),
     {| _book_image_cache := Some cache; world := w |}).
Proof.
  intros Hu Hamazon Horder Hx Hentry.
  rewrite get_book_image_with_cache by done. simpl.
  assert (Cache.get cache u w = Ret (Some x)) as ->.
  { unfold in_order, entry, Cache.get, redis_entry, file_entry, Redis.get in *.
    destruct (use_redis cache).
    - destruct Horder as [-> _]. simpl. destruct (Redis.db _ !! _) as [[y t]|]; [|done].
      simpl in *. simplify_eq. by rewrite bool_decide_eq_false_2.
    - destruct (cache_file w) eqn:Hw; simpl; [done|by rewrite Hentry|].
      by destruct (Horder e). }
  by rewrite (if_truthy_nonempty x Hx).
Qed.

(** After a request that found an image on the page, the same request is
    answered from the cache with the same URL, also when the network is
    down by then. *)
Theorem second_request_is_cached env config session session' book_url st u backend st' :
  get_book_image env config session book_url st = (Found u false backend, st') →
  get_book_image env config session' book_url st' = (Found u true backend, st').
Proof.
  unfold get_book_image at 1. intros H.
  destruct (if_truthy book_url) as [url|] eqn:Hurl; [|done].
  apply if_truthy_Some in Hurl as [-> Hne].
  destruct (str_contains "amazon" (lower url)) eqn:Ha; [|done]. simpl in H.
  apply str_contains_lower in Ha.
  destruct (match _book_image_cache st with
            | Some cache => Ret cache
            | None => __init__ env config (world st)
            end) as [cache|e]; [|done].
  simpl in H. destruct (Cache.get cache url (world st)) as [cached|e]; [|done].
  destruct (if_truthy cached); [done|].
  destruct (extract_image_url env session url) as [found|e]; [|done].
  destruct (if_truthy found) as [image_url|] eqn:Hfound; [|done].
  apply if_truthy_Some in Hfound as [-> Himage].
  destruct (Cache.set cache url image_url (world st)) as [[[]|e] w'] eqn:Hset; [|done].
  simplify_eq. rewrite get_book_image_with_cache by done. simpl.
  pose proof (set_then_get cache url u (world st) Himage) as Hget.
  rewrite Hset in Hget. simpl in Hget. rewrite Hget by done.
  by rewrite (if_truthy_nonempty u Himage).
Qed.

Lemma second_request_is_cached_example :
  get_book_image Example.env Example.config Example2.session_down (Some Example.book_url)
    (get_book_image Example.env Example.config Example.session (Some Example.book_url)
       Example.start).2
  = (Found Example.cover_abc true "file",
     (get_book_image Example.env Example.config Example.session (Some Example.book_url)
        Example.start).2).
Proof.
  apply (second_request_is_cached Example.env Example.config Example.session
           Example2.session_down (Some Example.book_url) Example.start).
  vm_compute. reflexivity.
Defined.

Lemma cache_hit_skips_extraction_example :
  get_book_image Example.env Example.config Example2.session_down (Some Example.book_url)
    {| _book_image_cache := Some Example.file_cache;
       world := (Cache.set Example.file_cache Example.book_url Example.cover_abc
                   Example.world_offline).2 |}
  = (Found Example.cover_abc true "file",
     {| _book_image_cache := Some Example.file_cache;
        world := (Cache.set Example.file_cache Example.book_url Example.cover_abc
                    Example.world_offline).2 |}).
Proof.
  apply (cache_hit_skips_extraction Example.env Example.config Example2.session_down
           Example.file_cache Example.book_url Example.cover_abc).
  - discriminate.
  - exists "https://www.", "amazon", ".com/dp/0000000001". split; reflexivity.
  - intros e. discriminate.
  - discriminate.
  - vm_compute. reflexivity.
Defined.

(** Only a request that found an image on the page writes to the stores:
    after any other answer (bad request, cache hit, not found, server
    error) the stores are as before. *)
Theorem only_fresh_result_is_written env config session book_url st :
  (∀ u backend, (get_book_image env config session book_url st).1 ≠ Found u false backend) →
  world (get_book_image env config session book_url st).2 = world st.
Proof.
  unfold get_book_image. intros H.
  destruct (if_truthy book_url) as [url|]; [|done].
  destruct (negb _); [done|].
  destruct (match _book_image_cache st with
            | Some cache => Ret cache
            | None => __init__ env config (world st)
            end) as [cache|e]; [|done].
  simpl in *. destruct (Cache.get cache url (world st)) as [cached|e]; [|done].
  destruct (if_truthy cached); [done|].
  destruct (extract_image_url env session url) as [found|e]; [|done].
  destruct (if_truthy found) as [image_url|]; [|done].
  destruct (Cache.set cache url image_url (world st)) as [[[]|e] w'] eqn:Hset; simpl in *.
  - by destruct (H image_url (backend_name cache)).
  - pose proof (set_raises_unchanged cache url image_url (world st) e) as Hw.
    rewrite Hset in Hw. by apply Hw.
Qed.

Lemma only_fresh_result_is_written_example :
  world (get_book_image Example.env Example.config Example.session
           (Some Example.book_url_empty) Example.start).2
  = world Example.start.
Proof.
  apply only_fresh_result_is_written. intros u backend H.
  vm_compute in H. discriminate H.
Defined.

(** When the page cannot be fetched (the request fails, or the status is
    an error status) and the cache has no entry, the answer is that no
    image was found, and nothing is stored. *)
Theorem failed_fetch_answers_not_found env config session cache u w :
  u ≠ EmptyString → occurs_nocase "amazon" u →
  in_order cache w →
  entry cache w (key_prefix cache +:+ ":" +:+ u) = None →
  (∀ response, session u = Ret response →
     (400 ≤ status_code response < 600)%Z) →
  get_book_image env config session (Some u)
    {| _book_image_cache := Some cache; world := w |}
  = (NotFound "Could not find book cover image",
     {| _book_image_cache := Some cache; world := w |}).
Proof.
  intros Hu Hamazon Horder Hentry Hfail.
  rewrite get_book_image_with_cache by done. simpl.
  assert (Cache.get cache u w = Ret None) as ->.
  { unfold in_order, entry, Cache.get, redis_entry, file_entry, Redis.get in *.
    destruct (use_redis cache).
    - destruct Horder as [-> _]. simpl. by rewrite Hentry.
    - destruct (cache_file w) eqn:Hw; simpl; [done|by rewrite Hentry|].
      by destruct (Horder e). }
  simpl.
  assert (extract_image_url env session u = Ret None) as ->; [|done].
  unfold extract_image_url, _fetch_html. rewrite try_except_Exception.
  destruct (session u) as [response|e] eqn:Hs; simpl; [|done].
  unfold raise_for_status. destruct (Hfail response eq_refl) as [H1 H2].
  apply Z.leb_le in H1. apply Z.ltb_lt in H2. by rewrite H1, H2.
Qed.

Lemma failed_fetch_answers_not_found_example :
  get_book_image Example.env Example.config Example2.session_404 (Some Example.book_url)
    Example2.state_file
  = (NotFound "Could not find book cover image", Example2.state_file).
Proof.
  apply (failed_fetch_answers_not_found Example.env Example.config Example2.session_404
           Example.file_cache Example.book_url Example.world_offline).
  - discriminate.
  - exists "https://www.", "amazon", ".com/dp/0000000001". split; reflexivity.
  - intros e. discriminate.
  - reflexivity.
  - intros response [= <-]. simpl. lia.
Defined.

(** With the store of the cache object in working order, the endpoint never
    answers with a server error. *)
Theorem no_server_error_in_order env config session book_url cache w e :
  in_order cache w →
  (get_book_image env config session book_url
     {| _book_image_cache := Some cache; world := w |}).1 ≠ ServerError e.
Proof.
  intros Horder. unfold get_book_image.
  destruct (if_truthy book_url) as [url|]; [|done].
  destruct (negb _); [done|]. simpl.
  assert (∃ r, Cache.get cache url w = Ret r) as [cached ->].
  { unfold in_order, Cache.get, Redis.get in *. destruct (use_redis cache).
    - destruct Horder as [-> _]. simpl. repeat case_match; eauto.
    - destruct (cache_file w) eqn:Hw; simpl; eauto. by destruct (Horder e0). }
  destruct (if_truthy cached); [done|].
  destruct (extract_image_url_total env session url) as [found ->].
  destruct (if_truthy found) as [image_url|]; [|done].
  assert ((Cache.set cache url image_url w).1 = Ret tt) as Hset.
  { unfold in_order in Horder. destruct (use_redis cache) eqn:Hb.
    - destruct Horder as [Hup Ht]. unfold Cache.set, Redis.setex. rewrite Hb, Hup. simpl.
      by destruct (Z.leb_spec (timeout cache) 0); [lia|].
    - by destruct (file_set cache url image_url w Hb Horder) as (c & -> & _). }
  destruct (Cache.set cache url image_url w) as [[[]|e'] w']; simpl in *; done.
Qed.

Lemma no_server_error_in_order_example :
  (get_book_image Example.env Example.config Example.session (Some Example.book_url)
     Example2.state_file).1 ≠ ServerError RedisError.
Proof.
  apply no_server_error_in_order. intros e. discriminate.
Defined.

(** The backend is chosen once: when the networked store goes away after
    the cache object was made, [get] and [set] raise, the cache file is not
    used instead, and the endpoint answers with a server error. *)
Theorem redis_outage_raises env config session self u v w :
  use_redis self = true →
  Redis.reachable (redis_server w) = false →
  Cache.get self u w = Raise RedisError ∧
  Cache.set self u v w = (Raise RedisError, w) ∧
  (u ≠ EmptyString → occurs_nocase "amazon" u →
   get_book_image env config session (Some u)
     {| _book_image_cache := Some self; world := w |}
   = (ServerError RedisError, {| _book_image_cache := Some self; world := w |})).
Proof.
  intros Hredis Hdown.
  assert (Cache.get self u w = Raise RedisError) as Hget.
  { unfold Cache.get, Redis.get. by rewrite Hredis, Hdown. }
  split; [done|]. split.
  - unfold Cache.set, Redis.setex. rewrite Hredis, Hdown. simpl. by destruct w.
  - intros Hu Hamazon. rewrite get_book_image_with_cache by done. simpl. by rewrite Hget.
Qed.

Lemma redis_outage_raises_example :
  get_book_image Example.env Example.config Example.session (Some Example.book_url)
    Example2.state_outage
  = (ServerError RedisError, Example2.state_outage).
Proof.
  refine (proj2 (proj2 (redis_outage_raises Example.env Example.config Example.session
            Example.redis_cache Example.book_url Example.cover_abc Example.world_offline
            eq_refl eq_refl)) _ _).
  - discriminate.
  - exists "https://www.", "amazon", ".com/dp/0000000001". split; reflexivity.
Defined.



(** ** What the endpoint hands out *)

Lemma reachable_stored_valid env config st :
  reachable env config st → stored_values_valid env (world st).
Proof.
  induction 1 as [st (_ & Hdb & Hfile) | st session book_url _ IH | st w' _ IH Hstep].
  - split.
    + intros key value time. by rewrite Hdb, lookup_empty.
    + intros cache key value. by rewrite Hfile.
  - by apply get_book_image_preserves_valid.
  - simpl. by eapply environment_preserves_valid.
Qed.

Lemma get_returns_stored env self u w x :
  stored_values_valid env w → Cache.get self u w = Ret (Some x) →
  is_valid_image_url env (PyStr x) = Ret true.
Proof.
  intros [Hredis Hfile]. unfold Cache.get, Redis.get. destruct (use_redis self).
  - destruct (Redis.reachable (redis_server w)); simpl; [|done].
    destruct (Redis.db _ !! _) as [[y t]|] eqn:Hy; simpl; [|done].
    case_match; [|done]. intros [= ->]. eauto.
  - destruct (cache_file w) as [|cache|e] eqn:Hw; simpl; [done| |done].
    intros [= Hx]. eauto.
Qed.

(** In every state the application can reach, a URL that the endpoint
    answers with, from the cache or fresh from the page, passes
    [is_valid_image_url]. *)
Theorem api_returns_valid_urls env config session book_url st u cached backend :
  reachable env config st →
  (get_book_image env config session book_url st).1 = Found u cached backend →
  is_valid_image_url env (PyStr u) = Ret true.
Proof.
  intros Hreach. apply reachable_stored_valid in Hreach. unfold get_book_image.
  destruct (if_truthy book_url) as [url|]; [|done].
  destruct (negb _); [done|].
  destruct (match _book_image_cache st with
            | Some cache => Ret cache
            | None => __init__ env config (world st)
            end) as [cache|e]; [|done].
  simpl. destruct (Cache.get cache url (world st)) as [found|e] eqn:Hget; [|done].
  destruct (if_truthy found) as [x|] eqn:Hx.
  - apply if_truthy_Some in Hx as [-> _]. intros [= -> _ _].
    by eapply get_returns_stored.
  - destruct (extract_image_url env session url) as [fresh|e] eqn:Hex; [|done].
    destruct (if_truthy fresh) as [y|] eqn:Hy; [|done].
    apply if_truthy_Some in Hy as [-> _].
    destruct (Cache.set cache url y (world st)) as [[[]|e] w']; simpl; [|done].
    intros [= -> _ _]. by eapply extract_image_url_valid.
Qed.

Lemma api_returns_valid_urls_example :
  is_valid_image_url Example.env (PyStr Example.cover_abc) = Ret true.
Proof.
  apply (api_returns_valid_urls Example.env Example.config Example.session
           (Some Example.book_url) Example.start Example.cover_abc false "file").
  - apply reach_initial. split; [reflexivity|]. split; reflexivity.
  - vm_compute. reflexivity.
Defined.

(* ===================================================================== *)
(** * Properties of the logging configuration                             *)
(* ===================================================================== *)


